(** * GPIO_control: button gesture driver and LED driver

    A shallow embedding of the two kernel modules that make up the core of
    the repository:

    - the button driver ([press_count], [press_timer], [button_work],
      [button_irq_handler], [button_work_handler], [button_read],
      [button_write]), and
    - the LED driver it borrows its GPIO descriptors from ([led_write]).

    The C globals become the fields of a [state] record which every
    function receives and returns.  Writes to the output lines
    ([gpiod_set_value]) are appended to a trace; the level of a line is the
    last value written to it, as the drivers never read a line back. *)

From Stdlib Require Import ZArith Lia Bool Ascii String List.
From stdpp Require Import base decidable option list.
Import ListNotations.

Open Scope Z_scope.

(** ** Kernel primitives used by the drivers *)

Module Kernel.

(** The modules are cross-compiled for 32-bit ARM (ARCH := arm,
    arm-linux-gnueabihf-), so [unsigned long] and [int] are 32 bits. *)
Definition BITS_PER_LONG : Z := 32.

(** Conversion to [unsigned long]: reduction modulo 2^BITS_PER_LONG. *)
Definition ulong (z : Z) : Z := z mod 2 ^ BITS_PER_LONG.

(** The cast [(long) u] of an unsigned long. *)
Definition long (u : Z) : Z :=
  if u <? 2 ^ (BITS_PER_LONG - 1) then u else u - 2 ^ BITS_PER_LONG.

(** Conversion to [int], with the wrap-around the kernel is built with. *)
Definition int (z : Z) : Z := (z + 2 ^ 31) mod 2 ^ 32 - 2 ^ 31.

(** [time_before(a, b)] is [((long)((a) - (b)) < 0)]. *)
Definition time_before (a b : Z) : bool := long (ulong (a - b)) <? 0.

(** The value [jiffies] has when the kernel starts counting, for a tick
    rate [HZ]: [(unsigned long)(unsigned int)(-300 * HZ)]. *)
Definition INITIAL_JIFFIES (HZ : Z) : Z := (- 300 * HZ) mod 2 ^ 32.

(** [msecs_to_jiffies] for a tick rate that divides 1000. *)
Definition msecs_to_jiffies_hz (HZ m : Z) : Z :=
  (m + 1000 / HZ - 1) / (1000 / HZ).

Definition EFAULT : Z := 14.
Definition EINVAL : Z := 22.

(** The [%d] conversion of [snprintf]; an [int] has at most ten digits. *)
Definition digit (d : Z) : ascii := ascii_of_nat (48 + Z.to_nat d).

Fixpoint fmt_u (fuel : nat) (n : Z) (acc : string) : string :=
  match fuel with
  | O => acc
  | S fuel' =>
      let acc' := String (digit (n mod 10)) acc in
      if n / 10 =? 0 then acc' else fmt_u fuel' (n / 10) acc'
  end.

Definition fmt_d (n : Z) : string :=
  if n <? 0 then String "-" (fmt_u 10 (- n) EmptyString)
  else fmt_u 10 n EmptyString.

(** [snprintf(buf, size, ...)] keeps at most [size - 1] characters and
    returns the length the whole text would have had. *)
Definition snprintf (size : nat) (text : string) : string * Z :=
  (substring 0 (size - 1) text, Z.of_nat (String.length text)).

End Kernel.

(** ** Output lines *)

Module Gpio.

(** A GPIO descriptor, which stands for one line. *)
Definition gpio_desc := nat.

(** A value of type [struct gpio_desc *]: the NULL pointer, an error
    pointer [ERR_PTR(err)] as the [gpiod_get] family returns on failure,
    or a pointer to a descriptor. *)
Inductive gpio_ptr : Type :=
| NULL
| ERR_PTR (err : Z)
| Desc (d : gpio_desc).

(** One call of [gpiod_set_value(desc, value)]. *)
Definition gpio_write : Type := gpio_desc * bool.

(** The level of line [d] after the writes of [tr] (oldest first): the
    last value written to it, [None] when it was never written. *)
Fixpoint line_value (tr : list gpio_write) (d : gpio_desc) : option bool :=
  match tr with
  | [] => None
  | (d', v) :: rest =>
      match line_value rest d with
      | Some v' => Some v'
      | None => if decide (d' = d) then Some v else None
      end
  end.

Definition is_active (tr : list gpio_write) (d : gpio_desc) : bool :=
  match line_value tr d with
  | Some true => true
  | _ => false
  end.

(** How many of the lines [ds] are active. *)
Fixpoint active_count (tr : list gpio_write) (ds : list gpio_desc) : nat :=
  match ds with
  | [] => 0%nat
  | d :: rest => ((if is_active tr d then 1 else 0) + active_count tr rest)%nat
  end.

End Gpio.

(** ** The LED driver *)

Module Led.

Import Kernel Gpio.

Definition NUM_DEVICES : Z := 3.

(** [led_gpio] and [led_state], and the writes the driver made. *)
Record state : Type := State {
  led_gpio : list gpio_ptr;
  led_state : list bool;
  gpio_trace : list gpio_write
}.

(** [gpiod_set_value] returns at once for a NULL pointer, and with a
    warning and no write for an error pointer. *)
Definition gpiod_set_value (d : gpio_ptr) (v : bool) (s : state)
  : state :=
  match d with
  | Desc d' => State (led_gpio s) (led_state s) (gpio_trace s ++ [(d', v)])
  | NULL | ERR_PTR _ => s
  end.

Definition set_led_state (i : nat) (v : bool) (s : state) : state :=
  State (led_gpio s) (<[i := v]> (led_state s)) (gpio_trace s).

(** The descriptor of LED [index], exported to the button driver. *)
Definition led_get_gpio (index : Z) (s : state) : gpio_ptr :=
  if (0 <=? index) && (index <? NUM_DEVICES)
  then default NULL (led_gpio s !! Z.to_nat index)
  else NULL.

(** [led_index] is [dev->index] of the opened device (0, 1 or 2);
    [buffer] is the first byte of the caller's buffer, [None] when
    [copy_from_user] faults. *)
Definition led_write (led_index : nat) (len : Z) (buffer : option ascii)
    (s : state) : Z * state :=
  if len <? 1 then (- EFAULT, s)
  else
    match buffer with
    | None => (- EFAULT, s)
    | Some cmd =>
        let desc := default NULL (led_gpio s !! led_index) in
        if (cmd =? "1")%char then
          (len, gpiod_set_value desc true (set_led_state led_index true s))
        else if (cmd =? "0")%char then
          (len, gpiod_set_value desc false (set_led_state led_index false s))
        else if (cmd =? "t")%char then
          let v := negb (default false (led_state s !! led_index)) in
          (len, gpiod_set_value desc v (set_led_state led_index v s))
        else (- EINVAL, s)
    end.

End Led.

(** ** The button driver *)

Module Button.

Import Kernel Gpio.

Definition DEBOUNCE_TIME_MS : Z := 50.
Definition MULTI_PRESS_TIMEOUT_MS : Z := 1000.

(** The driver's globals, the function-static [last_irq_time], and the
    two kernel objects it owns: [press_timer] holds its expiry while it is
    pending, [button_work] is true while the work item is queued. *)
Record state : Type := State {
  press_count : Z;
  button_pressed : bool;
  current_led_state : Z;
  last_irq_time : Z;
  press_timer : option Z;
  button_work : bool;
  led_gpios : list gpio_ptr;
  gpio_trace : list gpio_write
}.

Definition set_press_count (v : Z) (s : state) : state :=
  State v (button_pressed s) (current_led_state s) (last_irq_time s)
        (press_timer s) (button_work s) (led_gpios s) (gpio_trace s).

Definition set_button_pressed (v : bool) (s : state) : state :=
  State (press_count s) v (current_led_state s) (last_irq_time s)
        (press_timer s) (button_work s) (led_gpios s) (gpio_trace s).

Definition set_current_led_state (v : Z) (s : state) : state :=
  State (press_count s) (button_pressed s) v (last_irq_time s)
        (press_timer s) (button_work s) (led_gpios s) (gpio_trace s).

Definition set_last_irq_time (v : Z) (s : state) : state :=
  State (press_count s) (button_pressed s) (current_led_state s) v
        (press_timer s) (button_work s) (led_gpios s) (gpio_trace s).

Definition set_press_timer (v : option Z) (s : state) : state :=
  State (press_count s) (button_pressed s) (current_led_state s)
        (last_irq_time s) v (button_work s) (led_gpios s) (gpio_trace s).

Definition set_button_work (v : bool) (s : state) : state :=
  State (press_count s) (button_pressed s) (current_led_state s)
        (last_irq_time s) (press_timer s) v (led_gpios s) (gpio_trace s).

Definition set_gpio_trace (v : list gpio_write) (s : state) : state :=
  State (press_count s) (button_pressed s) (current_led_state s)
        (last_irq_time s) (press_timer s) (button_work s) (led_gpios s) v.

(** Kernel calls on the driver's objects.  [gpiod_set_value] writes the
    line of a descriptor; it returns at once for a NULL pointer, and with a
    warning and no write for an error pointer. *)
Definition gpiod_set_value (p : gpio_ptr) (v : bool) (s : state) : state :=
  match p with
  | Desc d => set_gpio_trace (gpio_trace s ++ [(d, v)]) s
  | NULL | ERR_PTR _ => s
  end.

(** [schedule_work] queues the item unless it is queued already. *)
Definition schedule_work (s : state) : state := set_button_work true s.

Definition mod_timer (expires : Z) (s : state) : state :=
  set_press_timer (Some expires) s.

Definition del_timer (s : state) : state := set_press_timer None s.

(** The loop [for (i = 0; i < 3; i++) if (led_gpios[i])
    gpiod_set_value(led_gpios[i], v);] shared by the two functions
    below. *)
Definition set_led (v : bool) (s : state) (i : nat) : state :=
  match led_gpios s !! i with
  | None | Some NULL => s
  | Some p => gpiod_set_value p v s
  end.

Definition turn_off_all_leds (s : state) : state :=
  foldl (set_led false) s (seq 0 3).

Definition turn_on_all_leds (s : state) : state :=
  foldl (set_led true) s (seq 0 3).

Definition control_led (led_index : Z) (s : state) : state :=
  if (0 <=? led_index) && (led_index <? 3) then
    match led_gpios s !! Z.to_nat led_index with
    | None | Some NULL => s
    | Some p => gpiod_set_value p true (turn_off_all_leds s)
    end
  else s.

Definition button_work_handler (s : state) : state :=
  let s' :=
    match press_count s with
    | 1 => control_led 0 (set_current_led_state 1 s)
    | 2 => control_led 1 (set_current_led_state 2 s)
    | 3 => control_led 2 (set_current_led_state 3 s)
    | 4 => turn_on_all_leds (set_current_led_state 4 s)
    | _ => turn_off_all_leds (set_current_led_state 0 s)
    end in
  set_press_count 0 s'.

Definition press_timer_callback (s : state) : state :=
  if 0 <? press_count s then schedule_work s else s.

Section Ticks.

(** [msecs_to_jiffies] depends on the tick rate the kernel was
    configured with, which the repository does not fix. *)
Variable msecs_to_jiffies : Z -> Z.

(** [jiffies] is the tick counter as the handler reads it; the handler is
    short enough that its two reads give the same tick. *)
Definition button_irq_handler (jiffies : Z) (s : state) : state :=
  let current_time := jiffies in
  if time_before current_time
       (ulong (last_irq_time s + msecs_to_jiffies DEBOUNCE_TIME_MS))
  then s
  else
    let s1 := set_last_irq_time current_time s in
    let s2 := set_button_pressed true s1 in
    let s3 := set_press_count (int (press_count s2 + 1)) s2 in
    let s4 :=
      mod_timer (ulong (jiffies + msecs_to_jiffies MULTI_PRESS_TIMEOUT_MS))
                s3 in
    if 5 <=? press_count s4 then schedule_work (del_timer s4) else s4.

End Ticks.

(** The text of the [Current State:] line. *)
Definition led_status (st : Z) : string :=
  match st with
  | 0 => "All LEDs OFF"
  | 1 => "LED 0 (Green) ON"
  | 2 => "LED 1 (White) ON"
  | 3 => "LED 2 (Yellow) ON"
  | 4 => "All LEDs ON"
  | _ => "Unknown state"
  end%string.

Definition newline : string := String (ascii_of_nat 10) EmptyString.

Definition status_text (s : state) : string :=
  ("Button Status: " ++ (if button_pressed s then "Pressed" else "Released")
     ++ newline ++ "Press Count: " ++ fmt_d (press_count s)
     ++ newline ++ "Current State: " ++ led_status (current_led_state s)
     ++ newline)%string.

(** What a [read] gives back: the return value, the bytes copied to the
    caller's buffer (if any), the file offset and the driver state. *)
Record read_result : Type := ReadResult {
  read_ret : Z;
  read_data : option string;
  read_offset : Z;
  read_state : state
}.

(** [user_ok] is false when [copy_to_user] faults. *)
Definition button_read (len offset : Z) (user_ok : bool) (s : state)
  : read_result :=
  if negb (offset =? 0) then ReadResult 0 None offset s
  else
    let '(status_msg, msg_len) := snprintf 200 (status_text s) in
    if len <? msg_len then ReadResult (- EINVAL) None offset s
    else if negb user_ok then ReadResult (- EFAULT) None offset s
    else
      ReadResult msg_len
                 (Some (substring 0 (Z.to_nat msg_len) status_msg))
                 (offset + msg_len)
                 (set_button_pressed false s).

(** [buffer] is the first byte of the caller's buffer, [None] when
    [copy_from_user] faults. *)
Definition button_write (len : Z) (buffer : option ascii) (s : state)
  : Z * state :=
  if len <? 1 then (- EFAULT, s)
  else
    match buffer with
    | None => (- EFAULT, s)
    | Some cmd =>
        if (cmd =? "r")%char then
          (len, turn_off_all_leds
                  (set_current_led_state 0 (set_press_count 0 s)))
        else if (cmd =? "s")%char then (len, s)
        else (- EINVAL, s)
    end.

Definition ENODEV : Z := 19.

Definition set_led_gpios (v : list gpio_ptr) (s : state) : state :=
  State (press_count s) (button_pressed s) (current_led_state s)
        (last_irq_time s) (press_timer s) (button_work s) v (gpio_trace s).

(** The module's statics as their initialisers leave them when the
    module is loaded. *)
Definition loaded : state :=
  State 0 false 0 0 None false [NULL; NULL; NULL] [].

(** What the kernel calls made by [button_probe] give.  A call that
    returns a pointer gives [Some e] when the pointer is [ERR_PTR(-e)];
    the others give their [int] result. *)
Record probe_env : Type := ProbeEnv {
  button_gpio_err : option positive;      (* devm_gpiod_get *)
  gpiod_to_irq_ret : Z;                   (* gpiod_to_irq *)
  request_irq_ret : Z;                    (* devm_request_irq *)
  alloc_chrdev_ret : Z;                   (* alloc_chrdev_region *)
  class_create_err : option positive;     (* class_create *)
  cdev_add_ret : Z;                       (* cdev_add *)
  device_create_err : option positive     (* device_create *)
}.

(** The loop [for (i = 0; i < 3; i++) { led_gpios[i] = led_get_gpio(i);
    if (!led_gpios[i]) return -ENODEV; }], from index [i] for [n] more
    rounds; the flag tells whether it ran to its end. *)
Fixpoint probe_led_loop (leds : Led.state) (i n : nat) (s : state)
  : bool * state :=
  match n with
  | O => (true, s)
  | S n' =>
      let desc := Led.led_get_gpio (Z.of_nat i) leds in
      let s1 := set_led_gpios (<[i := desc]> (led_gpios s)) s in
      match desc with
      | NULL => (false, s1)
      | ERR_PTR _ | Desc _ => probe_led_loop leds (S i) n' s1
      end
  end.

(** [button_probe] on the statics [s] a previous binding or the module
    load left: its return value and the statics afterwards.  It assigns
    the descriptor slots, sets up the timer and the work item and, when
    everything succeeded, switches every LED off; it assigns none of
    [press_count], [button_pressed], [current_led_state] and
    [last_irq_time].  [leds] is the LED driver, whose slots the probe
    reads through [led_get_gpio]; only a NULL pointer stops it, an error
    pointer is taken like a descriptor. *)
Definition button_probe (env : probe_env) (leds : Led.state) (s : state)
  : Z * state :=
  match button_gpio_err env with
  | Some e => (Z.neg e, s)
  | None =>
      let '(complete, s1) := probe_led_loop leds 0 3 s in
      if negb complete then (- ENODEV, s1)
      else if gpiod_to_irq_ret env <? 0 then (gpiod_to_irq_ret env, s1)
      else if negb (request_irq_ret env =? 0) then (request_irq_ret env, s1)
      else
        (* timer_setup, INIT_WORK *)
        let s2 := set_button_work false (set_press_timer None s1) in
        if alloc_chrdev_ret env <? 0 then (alloc_chrdev_ret env, s2)
        else
          match class_create_err env with
          | Some e => (Z.neg e, s2)
          | None =>
              if cdev_add_ret env <? 0 then (cdev_add_ret env, s2)
              else
                match device_create_err env with
                | Some e => (Z.neg e, s2)
                | None => (0, turn_off_all_leds s2)
                end
          end
  end.

(** [button_remove]: [del_timer_sync], [cancel_work_sync], then every LED
    off; the character device is then taken down.  None of the counters is
    cleared. *)
Definition button_remove (s : state) : state :=
  turn_off_all_leds (set_button_work false (set_press_timer None s)).

(** *** The driver as a transition system *)

Inductive event : Type :=
| EvIrq (jiffies : Z)                       (* a falling edge of the button *)
| EvTimer                                   (* [press_timer] expires *)
| EvWork                                    (* the workqueue runs the item *)
| EvRead (len offset : Z) (user_ok : bool)
| EvWrite (len : Z) (buffer : option ascii).

Section Run.

Variable msecs_to_jiffies : Z -> Z.

(** One event; the second component lists the press counts the work
    handler processed (its "Processing %d button presses" lines). *)
Definition step (e : event) (s : state) : state * list Z :=
  match e with
  | EvIrq jiffies => (button_irq_handler msecs_to_jiffies jiffies s, [])
  | EvTimer =>
      match press_timer s with
      | Some _ => (press_timer_callback (set_press_timer None s), [])
      | None => (s, [])
      end
  | EvWork =>
      if button_work s
      then (button_work_handler (set_button_work false s), [press_count s])
      else (s, [])
  | EvRead len offset user_ok =>
      (read_state (button_read len offset user_ok s), [])
  | EvWrite len buffer => ((button_write len buffer s).2, [])
  end.

Fixpoint run (evs : list event) (s : state) : state * list Z :=
  match evs with
  | [] => (s, [])
  | e :: rest =>
      let '(s1, d1) := step e s in
      let '(s2, d2) := run rest s1 in
      (s2, d1 ++ d2)
  end.

(** The life of the driver from the module load on; the flag tells
    whether it is bound.  A probe binds it exactly when it returns 0 and a
    remove unbinds it; the statics survive both.  Interrupt, timer and
    worker can still run around a remove, so events are allowed in either
    phase (the file operations too, which only adds states). *)
Inductive lifecycle : bool -> state -> Prop :=
| life_loaded : lifecycle false loaded
| life_probe env leds s :
    lifecycle false s ->
    lifecycle ((button_probe env leds s).1 =? 0) (button_probe env leds s).2
| life_step b e s :
    lifecycle b s -> lifecycle b (step e s).1
| life_remove s :
    lifecycle true s -> lifecycle false (button_remove s).

(** States the driver can be in while it is bound. *)
Definition reachable (s : state) : Prop := lifecycle true s.

End Run.

End Button.

(** * Vocabulary of the properties *)

Import Kernel Gpio Button.

(** The writes of one pass of the loop over the three LED slots. *)
Definition loop_writes (v : bool) (gs : list gpio_ptr)
  : list gpio_write :=
  flat_map (fun i => match gs !! i with
                     | Some (Desc d) => [(d, v)]
                     | _ => []
                     end) (seq 0 3).

(** The value the handler records for a press count. *)
Definition recorded_state (n : Z) : Z :=
  match n with
  | 1 => 1 | 2 => 2 | 3 => 3 | 4 => 4
  | _ => 0
  end.

(** The writes of [control_led i]. *)
Definition select_writes (i : nat) (gs : list gpio_ptr)
  : list gpio_write :=
  match gs !! i with
  | Some (Desc d) => loop_writes false gs ++ [(d, true)]
  | Some (ERR_PTR _) => loop_writes false gs
  | _ => []
  end.

(** The writes the handler makes for a press count. *)
Definition handler_writes (n : Z) (gs : list gpio_ptr)
  : list gpio_write :=
  match n with
  | 1 => select_writes 0 gs
  | 2 => select_writes 1 gs
  | 3 => select_writes 2 gs
  | 4 => loop_writes true gs
  | _ => loop_writes false gs
  end.

(** The writes one run of the work handler adds to the trace. *)
Definition actuation_writes (s : state) : list gpio_write :=
  drop (length (gpio_trace s)) (gpio_trace (button_work_handler s)).

(** A write sequence that starts by switching every line of [ds] off. *)
Definition off_first (ds : list gpio_desc) (w : list gpio_write) : Prop :=
  exists rest, w = map (fun d => (d, false)) ds ++ rest.

(** The three LED slots hold three different lines. *)
Definition wired (s : state) (d0 d1 d2 : gpio_desc) : Prop :=
  led_gpios s = [Desc d0; Desc d1; Desc d2] /\ NoDup [d0; d1; d2].

(** A board for the examples: the LEDs on lines 25, 24 and 23 as in the
    device tree overlay, a kernel ticking at 100 Hz. *)
Definition board : Led.state :=
  Led.State [Desc 25%nat; Desc 24%nat; Desc 23%nat] [false; false; false] [].

(** The kernel calls of the probe all succeed. *)
Definition env_ok (env : probe_env) : Prop :=
  button_gpio_err env = None /\ 0 <= gpiod_to_irq_ret env /\
  request_irq_ret env = 0 /\ 0 <= alloc_chrdev_ret env /\
  class_create_err env = None /\ 0 <= cdev_add_ret env /\
  device_create_err env = None.

(** An environment in which they do. *)
Definition probe_ok : probe_env := ProbeEnv None 17 0 0 None 0 None.

Definition probed : state := (button_probe probe_ok board loaded).2.

Definition hz100 : Z -> Z := msecs_to_jiffies_hz 100.

(** Press times that the debounce filter lets through one after the
    other: each at least [d] ticks after the one before, all below 2^31
    so that no comparison wraps. *)
Fixpoint spaced (d last : Z) (ts : list Z) : Prop :=
  match ts with
  | [] => True
  | t :: rest => (last + d <= t < 2 ^ 31) /\ spaced d t rest
  end.

(** Edges that the debounce filter accepts one after the other, the
    first of them against the time stamp [last]. *)
Fixpoint accepted (d last : Z) (js : list Z) : Prop :=
  match js with
  | [] => True
  | j :: rest =>
      time_before j (ulong (last + d)) = false /\ accepted d j rest
  end.

(** Events that neither count a press, nor reset the count, nor run the
    worker: timer expiries, reads, and writes other than a reset. *)
Definition passive (e : event) : Prop :=
  match e with
  | EvTimer | EvRead _ _ _ => True
  | EvWrite len buffer => len < 1 \/ buffer <> Some "r"%char
  | EvIrq _ | EvWork => False
  end.


(** One accumulation cycle that the worker closes before the next press:
    the accepted presses at the ticks [g], the expiry of the timer when
    they are fewer than five, and the worker. *)
Definition cycle (g : list Z) : list event :=
  map EvIrq g ++ (if (length g <? 5)%nat then [EvTimer; EvWork] else [EvWork]).


(** Events other than an edge of the button. *)
Definition quiet (e : event) : Prop :=
  match e with
  | EvIrq _ => False
  | _ => True
  end.

(** * The rest of the two drivers and their client *)

(** ** ioctl command numbers *)

Module Ioctl.

(** [_IOC(dir, type, nr, size)] of the generic ioctl encoding: the number
    in bits 0-7, the type in bits 8-15, the size in bits 16-29 and the
    direction in bits 30-31. *)
Definition _IOC (dir type nr size : Z) : Z :=
  Z.lor (Z.lor (Z.lor (Z.shiftl dir 30) (Z.shiftl type 8)) (Z.shiftl nr 0))
        (Z.shiftl size 16).

Definition _IOC_NONE : Z := 0.
Definition _IOC_READ : Z := 2.

Definition _IO (type nr : Z) : Z := _IOC _IOC_NONE type nr 0.

(** [_IOR(type, nr, T)], with [size] the size of [T]. *)
Definition _IOR (type nr size : Z) : Z := _IOC _IOC_READ type nr size.

Definition sizeof_int : Z := 4.

End Ioctl.

(** ** The LED driver: open, read, ioctl, probe and remove *)

Module LedFile.

Import Kernel Gpio Ioctl.

Definition ENODEV : Z := 19.
Definition ENOTTY : Z := 25.

Definition GPIO_IOC_MAGIC : Z := Z.of_nat (nat_of_ascii "k").
Definition GPIO_IOC_LED_ON : Z := _IO GPIO_IOC_MAGIC 1.
Definition GPIO_IOC_LED_OFF : Z := _IO GPIO_IOC_MAGIC 2.
Definition GPIO_IOC_LED_TOGGLE : Z := _IO GPIO_IOC_MAGIC 3.
Definition GPIO_IOC_GET_STATUS : Z := _IOR GPIO_IOC_MAGIC 4 sizeof_int.

(** [struct my_led] and the table [leds]. *)
Record my_led : Type := MyLed {
  name : string;
  index : nat
}.

Definition leds : list my_led :=
  [MyLed "green_led" 0; MyLed "white_led" 1; MyLed "yellow_led" 2].

(** [led_open]: [minor] is the minor number of the opened node (never
    negative); the second component is [file->private_data]. *)
Definition led_open (minor : Z) : Z * option my_led :=
  if Led.NUM_DEVICES <=? minor then (- ENODEV, None)
  else (0, leds !! Z.to_nat minor).

(** [led_write] on an open file. *)
Definition led_write (dev : my_led) (len : Z) (buffer : option ascii)
    (s : Led.state) : Z * Led.state :=
  Led.led_write (index dev) len buffer s.

(** The text [led_read] formats. *)
Definition status_text (dev : my_led) (s : Led.state) : string :=
  (name dev ++ " is "
     ++ (if default false (Led.led_state s !! index dev) then "ON" else "OFF")
     ++ String (ascii_of_nat 10) EmptyString)%string.

(** [led_read] returns its value, the bytes copied to the caller and the
    file offset; it changes nothing in the driver.  [user_ok] is false when
    [copy_to_user] faults. *)
Definition led_read (dev : my_led) (len offset : Z) (user_ok : bool)
    (s : Led.state) : Z * option string * Z :=
  if negb (offset =? 0) then (0, None, offset)
  else
    let '(status_msg, msg_len) := snprintf 100 (status_text dev s) in
    if len <? msg_len then (- EINVAL, None, offset)
    else if negb user_ok then (- EFAULT, None, offset)
    else (msg_len, Some (substring 0 (Z.to_nat msg_len) status_msg),
          offset + msg_len).

(** [led_ioctl] returns its value, the [int] it stored through [arg] (for
    GPIO_IOC_GET_STATUS) and the driver state. *)
Definition led_ioctl (dev : my_led) (cmd : Z) (user_ok : bool)
    (s : Led.state) : Z * option Z * Led.state :=
  let led_index := index dev in
  let desc := default NULL (Led.led_gpio s !! led_index) in
  if cmd =? GPIO_IOC_LED_ON then
    (0, None, Led.gpiod_set_value desc true (Led.set_led_state led_index true s))
  else if cmd =? GPIO_IOC_LED_OFF then
    (0, None,
     Led.gpiod_set_value desc false (Led.set_led_state led_index false s))
  else if cmd =? GPIO_IOC_LED_TOGGLE then
    let v := negb (default false (Led.led_state s !! led_index)) in
    (0, None, Led.gpiod_set_value desc v (Led.set_led_state led_index v s))
  else if cmd =? GPIO_IOC_GET_STATUS then
    let status := if default false (Led.led_state s !! led_index)
                  then 1 else 0 in
    if user_ok then (0, Some status, s) else (- EFAULT, None, s)
  else (- ENOTTY, None, s).

(** The module's globals before the probe: NULL descriptors, LEDs off. *)
Definition unprobed : Led.state :=
  Led.State [NULL; NULL; NULL] [false; false; false] [].

(** The first loop of [led_probe]: [acquire i] is what
    [devm_gpiod_get_index(dev, "led", i, GPIOD_OUT_LOW)] gives, a descriptor
    or an error number.  An error ends the probe with that number;
    otherwise the LED is recorded off and its line written low.  The
    registration of the character devices that follows is left out. *)
Fixpoint led_probe_from (acquire : nat -> gpio_desc + Z) (i n : nat)
    (s : Led.state) : Z + Led.state :=
  match n with
  | O => inr s
  | S n' =>
      match acquire i with
      | inr err => inl err
      | inl d =>
          let s1 := Led.State (<[i := Desc d]> (Led.led_gpio s))
                              (Led.led_state s) (Led.gpio_trace s) in
          let s2 := Led.set_led_state i false s1 in
          led_probe_from acquire (S i) n'
                         (Led.gpiod_set_value (Desc d) false s2)
      end
  end.

Definition led_probe (acquire : nat -> gpio_desc + Z) : Z + Led.state :=
  led_probe_from acquire 0 3 unprobed.

(** The globals that loop leaves when it is run on the globals [s],
    whether it ends the probe or not: a failed acquisition has stored its
    error pointer in the slot, and the slots after it are not assigned. *)
Fixpoint led_probe_globals (acquire : nat -> gpio_desc + Z) (i n : nat)
    (s : Led.state) : Led.state :=
  match n with
  | O => s
  | S n' =>
      match acquire i with
      | inr err =>
          Led.State (<[i := ERR_PTR err]> (Led.led_gpio s))
                    (Led.led_state s) (Led.gpio_trace s)
      | inl d =>
          let s1 := Led.State (<[i := Desc d]> (Led.led_gpio s))
                              (Led.led_state s) (Led.gpio_trace s) in
          let s2 := Led.set_led_state i false s1 in
          led_probe_globals acquire (S i) n'
                            (Led.gpiod_set_value (Desc d) false s2)
      end
  end.

(** The loop of [led_remove]: every LED is recorded off and its line
    written low. *)
Definition led_remove (s : Led.state) : Led.state :=
  foldl (fun s i =>
           Led.gpiod_set_value (default NULL (Led.led_gpio s !! i)) false
                               (Led.set_led_state i false s))
        s (seq 0 3).

(** The LED driver as a transition system over its open files. *)
Inductive event : Type :=
| EvWrite (dev : my_led) (len : Z) (buffer : option ascii)
| EvIoctl (dev : my_led) (cmd : Z) (user_ok : bool)
| EvRead (dev : my_led) (len offset : Z) (user_ok : bool).

Definition step (e : event) (s : Led.state) : Led.state :=
  match e with
  | EvWrite dev len buffer => (led_write dev len buffer s).2
  | EvIoctl dev cmd user_ok => (led_ioctl dev cmd user_ok s).2
  | EvRead _ _ _ _ => s
  end.

(** The files an application can hold are those [led_open] hands out. *)
Definition opened (dev : my_led) : Prop :=
  exists minor, 0 <= minor /\ led_open minor = (0, Some dev).

Definition event_dev (e : event) : my_led :=
  match e with
  | EvWrite dev _ _ | EvIoctl dev _ _ | EvRead dev _ _ _ => dev
  end.

Inductive reachable (acquire : nat -> gpio_desc + Z) : Led.state -> Prop :=
| reachable_probe s :
    led_probe acquire = inr s -> reachable acquire s
| reachable_step e s :
    reachable acquire s -> opened (event_dev e) ->
    reachable acquire (step e s).

End LedFile.

(** ** The command-line client (gpio_app.c), LED side *)

Module App.

Import LedFile.

Definition NUM_LEDS : Z := 3.

(** The [ioctl] system call on the descriptor the client opened on
    /dev/gpio_led<minor>: the driver's [led_ioctl] runs on the file
    [led_open] set up for that minor, and a negative result comes back as
    -1.  The second component is what the driver stored through the
    argument pointer, which in the client is always the address of a
    local [int]. *)
Definition ioctl (minor cmd : Z) (s : Led.state) : Z * option Z * Led.state :=
  match (led_open minor).2 with
  | Some dev =>
      let '(ret, out, s') := led_ioctl dev cmd true s in
      (if ret <? 0 then -1 else ret, out, s')
  | None => (-1, None, s)
  end.

(** [led_fds[i]] is the descriptor open on /dev/gpio_led<i>, or -1. *)
Definition fd_closed (led_fds : list Z) (led_index : Z) : bool :=
  default (-1) (led_fds !! Z.to_nat led_index) <? 0.

Definition led_control (led_index : Z) (command : string)
    (led_fds : list Z) (s : Led.state) : Z * Led.state :=
  if (led_index <? 0) || (NUM_LEDS <=? led_index)
     || fd_closed led_fds led_index
  then (-1, s)
  else
    let run_cmd cmd :=
      let '(result, _, s') := ioctl led_index cmd s in
      if result <? 0 then (-1, s') else (0, s') in
    if String.eqb command "on" then run_cmd GPIO_IOC_LED_ON
    else if String.eqb command "off" then run_cmd GPIO_IOC_LED_OFF
    else if String.eqb command "toggle" then run_cmd GPIO_IOC_LED_TOGGLE
    else (-1, s).

(** [all_leds_control]: the loop counts the LEDs it could switch. *)
Definition all_leds_control (command : string) (led_fds : list Z)
    (s : Led.state) : Z * Led.state :=
  let '(success, s') :=
    foldl (fun '(success, s) i =>
             let '(r, s1) := led_control (Z.of_nat i) command led_fds s in
             (if r =? 0 then success + 1 else success, s1))
          (0, s) (seq 0 3) in
  (if success =? NUM_LEDS then 0 else -1, s').

(** [get_led_status]: 1 or 0 as the driver reports, -1 on any failure. *)
Definition get_led_status (led_index : Z) (led_fds : list Z) (s : Led.state)
  : Z :=
  if (led_index <? 0) || (NUM_LEDS <=? led_index)
     || fd_closed led_fds led_index
  then -1
  else
    let '(result, out, _) := ioctl led_index GPIO_IOC_GET_STATUS s in
    if result <? 0 then -1 else default 0 out.

End App.

(** ** Vocabulary of the further properties *)


(** Edges that fall inside the debounce window after [last]. *)
Definition bouncing (d last : Z) (js : list Z) : Prop :=
  Forall (fun j => last <= j < last + d) js.

(** Timer and worker events. *)
Definition deferred (e : event) : Prop :=
  match e with
  | EvTimer | EvWork => True
  | _ => False
  end.

(** The LED driver's three descriptors are [d0], [d1], [d2], and what it
    records for each LED is the level it last wrote to that LED's line. *)
Definition led_synced (s : Led.state) (d0 d1 d2 : gpio_desc) : Prop :=
  Led.led_gpio s = [Desc d0; Desc d1; Desc d2] /\
  length (Led.led_state s) = 3%nat /\
  map (line_value (Led.gpio_trace s)) [d0; d1; d2] =
  map Some (Led.led_state s).

(** An acquisition that hands out the lines 25, 24 and 23 of the device
    tree overlay. *)
Definition overlay_lines (i : nat) : gpio_desc + Z :=
  match i with
  | 0%nat => inl 25%nat
  | 1%nat => inl 24%nat
  | 2%nat => inl 23%nat
  | _ => inr (-2)
  end.

(** The LED driver's state right after a probe on those lines. *)
Definition board_off : Led.state :=
  Led.State [Desc 25%nat; Desc 24%nat; Desc 23%nat] [false; false; false]
            [(25%nat, false); (24%nat, false); (23%nat, false)].
(** * Properties *)

(** ** Output traces *)

Section Traces.

Lemma line_value_app (t w : list gpio_write) (d : gpio_desc) :
  line_value (t ++ w) d =
  match line_value w d with
  | Some v => Some v
  | None => line_value t d
  end.
Proof.
  induction t as [|[d' v] t IH]; simpl.
  - destruct (line_value w d); reflexivity.
  - rewrite IH. destruct (line_value w d); reflexivity.
Qed.

Lemma line_value_last (t : list gpio_write) (d : gpio_desc) (v : bool) :
  line_value (t ++ [(d, v)]) d = Some v.
Proof. rewrite line_value_app. simpl. rewrite decide_True; done. Qed.

Lemma set_led_loop (v : bool) (s : state) :
  foldl (set_led v) s (seq 0 3) =
  set_gpio_trace (gpio_trace s ++ loop_writes v (led_gpios s)) s.
Proof.
  destruct s as [pc bp cl li pt bw gs tr].
  unfold loop_writes, set_led, gpiod_set_value, set_gpio_trace. simpl.
  destruct (gs !! 0%nat) as [[|e0|d0]|]; simpl;
    destruct (gs !! 1%nat) as [[|e1|d1]|]; simpl;
    destruct (gs !! 2%nat) as [[|e2|d2]|]; simpl;
    rewrite ?app_nil_r, <- ?app_assoc; reflexivity.
Qed.

Lemma turn_off_all_leds_eq (s : state) :
  turn_off_all_leds s =
  set_gpio_trace (gpio_trace s ++ loop_writes false (led_gpios s)) s.
Proof. apply set_led_loop. Qed.

Lemma turn_on_all_leds_eq (s : state) :
  turn_on_all_leds s =
  set_gpio_trace (gpio_trace s ++ loop_writes true (led_gpios s)) s.
Proof. apply set_led_loop. Qed.

(** Once the probe has filled the three slots, the loop writes each. *)
Lemma loop_writes_probed (v : bool) (d0 d1 d2 : gpio_desc) :
  loop_writes v [Desc d0; Desc d1; Desc d2] = [(d0, v); (d1, v); (d2, v)].
Proof. reflexivity. Qed.

End Traces.

(** ** The work handler *)

Section WorkHandler.

Lemma control_led_eq (i : nat) (s : state) :
  (i < 3)%nat ->
  control_led (Z.of_nat i) s =
  set_gpio_trace (gpio_trace s ++ select_writes i (led_gpios s)) s.
Proof.
  intros Hi. unfold control_led, select_writes.
  replace ((0 <=? Z.of_nat i) && (Z.of_nat i <? 3)) with true
    by (symmetry; apply andb_true_iff; split; [apply Z.leb_le | apply Z.ltb_lt]; lia).
  rewrite Nat2Z.id, turn_off_all_leds_eq.
  destruct s as [pc bp cl li pt bw gs tr]; simpl.
  destruct (gs !! i) as [[|e|d]|]; unfold gpiod_set_value, set_gpio_trace; simpl;
    rewrite ?app_nil_r, ?app_assoc; reflexivity.
Qed.

Lemma switch_default {A : Type} (n : Z) (a1 a2 a3 a4 d : A) :
  n <> 1 -> n <> 2 -> n <> 3 -> n <> 4 ->
  match n with 1 => a1 | 2 => a2 | 3 => a3 | 4 => a4 | _ => d end = d.
Proof.
  intros H1 H2 H3 H4.
  destruct n as [|p|p]; try reflexivity.
  destruct p as [p|p|]; try destruct p as [p|p|]; try destruct p as [p|p|];
    try reflexivity; lia.
Qed.

(** The handler in one equation: it records the mapped state, appends
    its writes and clears the count; nothing else changes. *)
Lemma button_work_handler_eq (s : state) :
  button_work_handler s =
  set_press_count 0
    (set_gpio_trace
       (gpio_trace s ++ handler_writes (press_count s) (led_gpios s))
       (set_current_led_state (recorded_state (press_count s)) s)).
Proof.
  unfold button_work_handler.
  destruct (decide (press_count s = 1)) as [E|N1];
    [rewrite E; change 0 with (Z.of_nat 0); rewrite control_led_eq by lia;
     reflexivity|].
  destruct (decide (press_count s = 2)) as [E|N2];
    [rewrite E; change 1 with (Z.of_nat 1); rewrite control_led_eq by lia;
     reflexivity|].
  destruct (decide (press_count s = 3)) as [E|N3];
    [rewrite E; change 2 with (Z.of_nat 2); rewrite control_led_eq by lia;
     reflexivity|].
  destruct (decide (press_count s = 4)) as [E|N4];
    [rewrite E, turn_on_all_leds_eq; reflexivity|].
  unfold handler_writes, recorded_state.
  rewrite !switch_default by assumption.
  rewrite turn_off_all_leds_eq. reflexivity.
Qed.

Lemma recorded_state_range (n : Z) : 0 <= recorded_state n <= 4.
Proof.
  destruct (decide (n = 1)) as [->|?]; [simpl; lia|].
  destruct (decide (n = 2)) as [->|?]; [simpl; lia|].
  destruct (decide (n = 3)) as [->|?]; [simpl; lia|].
  destruct (decide (n = 4)) as [->|?]; [simpl; lia|].
  unfold recorded_state. rewrite switch_default by assumption. lia.
Qed.

End WorkHandler.

(** ** The mapping from press counts to outputs *)

Lemma distinct3 (a b c : gpio_desc) :
  NoDup [a; b; c] -> a <> b /\ a <> c /\ b <> c.
Proof.
  intros H. inversion H as [|x l Ha H1]; subst.
  inversion H1 as [|y l' Hb _]; subst.
  repeat split; intros ->;
    [apply Ha; left | apply Ha; right; left | apply Hb; left].
Qed.

Ltac lines :=
  unfold is_active; rewrite ?line_value_app; simpl;
  repeat match goal with
         | |- context [decide (?a = ?b)] =>
             first [ rewrite (decide_True (P := a = b)) by congruence
                   | rewrite (decide_False (P := a = b)) by congruence ]
         end;
  simpl.


Lemma wired_probed : wired probed 25%nat 24%nat 23%nat.
Proof. split; [reflexivity | compute_done]. Qed.


(** C7. Handling the same press count a second time changes neither the
    recorded state nor the level of any output line. *)
Theorem work_handler_idempotent (s : state) (n : Z) :
  let once := button_work_handler (set_press_count n s) in
  let twice := button_work_handler (set_press_count n once) in
  current_led_state twice = current_led_state once /\
  forall d, line_value (gpio_trace twice) d = line_value (gpio_trace once) d.
Proof.
  intros once twice. subst twice once.
  rewrite !button_work_handler_eq. simpl. split; [reflexivity|].
  intros d. rewrite !line_value_app.
  destruct (line_value (handler_writes n (led_gpios s)) d); reflexivity.
Qed.

(** ** Order of the writes *)

Lemma actuation_writes_eq (s : state) :
  actuation_writes s = handler_writes (press_count s) (led_gpios s).
Proof.
  unfold actuation_writes. rewrite button_work_handler_eq. simpl.
  apply drop_app_length.
Qed.

(** C5, as amended. Selecting one LED writes every output off and only
    then the target on, so if at most one output was active before, at
    most one is active after each single write; switching all LEDs on
    writes each output on and writes none off. *)
Theorem selected_actuation_off_first (s : state) (d0 d1 d2 : gpio_desc) :
  wired s d0 d1 d2 ->
  (forall (i : nat) (d : gpio_desc),
     [d0; d1; d2] !! i = Some d -> press_count s = Z.of_nat i + 1 ->
     actuation_writes s = [(d0, false); (d1, false); (d2, false); (d, true)] /\
     off_first [d0; d1; d2] (actuation_writes s) /\
     ((active_count (gpio_trace s) [d0; d1; d2] <= 1)%nat ->
      forall k : nat,
        (active_count (gpio_trace s ++ take k (actuation_writes s))
                      [d0; d1; d2] <= 1)%nat)) /\
  (press_count s = 4 ->
     actuation_writes s = [(d0, true); (d1, true); (d2, true)]).
Proof.
  intros [Hgs Hnd]. apply distinct3 in Hnd as (N01 & N02 & N12).
  rewrite actuation_writes_eq, Hgs. split.
  - intros i d Hi Hn. rewrite Hn.
    assert (Hw : handler_writes (Z.of_nat i + 1) [Desc d0; Desc d1; Desc d2] =
                 [(d0, false); (d1, false); (d2, false); (d, true)]).
    { destruct i as [|[|[|i]]]; simpl in Hi; try discriminate Hi;
        injection Hi as <-; reflexivity. }
    rewrite Hw. split; [reflexivity|]. split; [eexists; reflexivity|].
    intros Hex k. unfold active_count, is_active in Hex.
    destruct i as [|[|[|i]]]; simpl in Hi; try discriminate Hi;
      injection Hi as <-;
      destruct k as [|[|[|[|k]]]]; simpl take; rewrite ?take_nil;
      unfold active_count; lines;
      destruct (line_value (gpio_trace s) d0) as [[]|];
      destruct (line_value (gpio_trace s) d1) as [[]|];
      destruct (line_value (gpio_trace s) d2) as [[]|];
      simpl in *; lia.
  - intros ->. reflexivity.
Qed.

Lemma selected_actuation_off_first_witness :
  wired (set_press_count 3 probed) 25%nat 24%nat 23%nat /\
  actuation_writes (set_press_count 3 probed) =
  [(25%nat, false); (24%nat, false); (23%nat, false); (23%nat, true)].
Proof.
  assert (W : wired (set_press_count 3 probed) 25%nat 24%nat 23%nat)
    by (split; [reflexivity | compute_done]).
  split; [exact W|].
  exact (proj1 (proj1 (selected_actuation_off_first _ _ _ _ W)
                      2%nat 23%nat eq_refl eq_refl)).
Defined.

(** C5 as written fails for the all-on actuation: its writes are three
    on-writes, with no off-write before them, and after the second of them
    two outputs are active. *)
Lemma all_on_not_off_first :
  let s := set_press_count 4 probed in
  let ds := [25%nat; 24%nat; 23%nat] in
  actuation_writes s = [(25%nat, true); (24%nat, true); (23%nat, true)] /\
  ~ off_first ds (actuation_writes s) /\
  active_count (gpio_trace s ++ take 2 (actuation_writes s)) ds = 2%nat.
Proof.
  split; [reflexivity|]. split; [|reflexivity].
  intros [rest H]. vm_compute in H. discriminate H.
Qed.

(** ** The debounce filter *)

Lemma long_ulong (z : Z) : - 2 ^ 31 <= z < 2 ^ 31 -> long (ulong z) = z.
Proof.
  intros Hz. unfold long, ulong, BITS_PER_LONG.
  change (2 ^ (32 - 1)) with (2 ^ 31).
  destruct (Z.ltb_spec (z mod 2 ^ 32) (2 ^ 31)) as [H|H];
    pose proof (Z.mod_pos_bound z (2 ^ 32) eq_refl) as Hb;
    pose proof (Z.div_mod z (2 ^ 32) ltac:(discriminate)) as Hd;
    change (2 ^ 32) with 4294967296 in *; change (2 ^ 31) with 2147483648 in *;
    lia.
Qed.

Lemma ulong_sub_ulong (a b : Z) : ulong (a - ulong b) = ulong (a - b).
Proof. unfold ulong. apply Zminus_mod_idemp_r. Qed.

Lemma time_before_no_wrap (a b : Z) :
  - 2 ^ 31 <= a - b < 2 ^ 31 -> time_before a (ulong b) = (a <? b).
Proof.
  intros H. unfold time_before. rewrite ulong_sub_ulong, long_ulong by exact H.
  destruct (Z.ltb_spec (a - b) 0), (Z.ltb_spec a b); try reflexivity; lia.
Qed.

Section Debounce.

Variable msecs_to_jiffies : Z -> Z.

Local Abbreviation debounce := (msecs_to_jiffies DEBOUNCE_TIME_MS).
Local Abbreviation timeout := (msecs_to_jiffies MULTI_PRESS_TIMEOUT_MS).

(** What the handler does with an edge it accepts. *)
Lemma irq_accepted (jiffies : Z) (s : state) :
  time_before jiffies (ulong (last_irq_time s + debounce)) = false ->
  button_irq_handler msecs_to_jiffies jiffies s =
  let s' := State (int (press_count s + 1)) true (current_led_state s) jiffies
                  (Some (ulong (jiffies + timeout))) (button_work s)
                  (led_gpios s) (gpio_trace s) in
  if 5 <=? int (press_count s + 1)
  then set_button_work true (set_press_timer None s')
  else s'.
Proof.
  intros H. unfold button_irq_handler. rewrite H. reflexivity.
Qed.

Lemma irq_rejected (jiffies : Z) (s : state) :
  time_before jiffies (ulong (last_irq_time s + debounce)) = true ->
  button_irq_handler msecs_to_jiffies jiffies s = s.
Proof.
  intros H. unfold button_irq_handler. rewrite H. reflexivity.
Qed.

(** C3, as amended. An edge is accepted exactly when it comes at least
    the debounce window after [last_irq_time] (compared without
    wrap-around); an accepted edge becomes the new [last_irq_time] and is
    counted, a rejected one leaves the whole state as it was.  No case is
    made for a first edge: [last_irq_time] starts at 0 and is compared
    like any other value. *)
Theorem debounce_filter (jiffies : Z) (s : state) :
  - 2 ^ 31 <= jiffies - (last_irq_time s + debounce) < 2 ^ 31 ->
  let s' := button_irq_handler msecs_to_jiffies jiffies s in
  (debounce <= jiffies - last_irq_time s ->
     last_irq_time s' = jiffies /\
     press_count s' = int (press_count s + 1) /\
     button_pressed s' = true) /\
  (jiffies - last_irq_time s < debounce -> s' = s).
Proof.
  intros Hrange s'. subst s'.
  pose proof (time_before_no_wrap jiffies (last_irq_time s + debounce) Hrange)
    as Htb.
  split; intros H.
  - rewrite irq_accepted
      by (rewrite Htb; apply Z.ltb_ge; lia).
    simpl. destruct (5 <=? int (press_count s + 1)); simpl; auto.
  - apply irq_rejected. rewrite Htb. apply Z.ltb_lt. lia.
Qed.

End Debounce.

Lemma debounce_filter_witness :
  (- 2 ^ 31 <= 1000 - (last_irq_time probed + hz100 DEBOUNCE_TIME_MS) < 2 ^ 31) /\
  press_count (button_irq_handler hz100 1000 probed) = 1.
Proof.
  assert (R : - 2 ^ 31 <= 1000 - (last_irq_time probed + hz100 DEBOUNCE_TIME_MS)
              < 2 ^ 31) by (vm_compute; split; congruence).
  split; [exact R|].
  exact (proj1 (proj2 (proj1 (debounce_filter hz100 1000 probed R)
                             ltac:(vm_compute; congruence)))).
Defined.

(** C3 as written fails on the first edge: no edge was accepted before,
    yet an edge at tick 3 is dropped and changes nothing. *)
Lemma first_edge_rejected :
  last_irq_time probed = 0 /\ press_count probed = 0 /\
  button_irq_handler hz100 3 probed = probed.
Proof. repeat split; reflexivity. Qed.

(** Outside the range the theorem above covers, the signed comparison
    also drops an edge that comes at the tick a 32-bit kernel starts
    counting from. *)
Example edge_at_boot_dropped :
  button_irq_handler hz100 (INITIAL_JIFFIES 100) probed = probed.
Proof. reflexivity. Qed.

(** ** Runs of the driver *)

Lemma int_small (z : Z) : - 2 ^ 31 <= z < 2 ^ 31 -> int z = z.
Proof.
  intros H. unfold int. rewrite Z.mod_small; lia.
Qed.

Lemma work_handler_clears_count (s : state) :
  press_count (button_work_handler s) = 0 /\
  button_work (button_work_handler s) = button_work s /\
  press_timer (button_work_handler s) = press_timer s.
Proof. rewrite button_work_handler_eq. simpl. auto. Qed.

Section Runs.

Variable msecs_to_jiffies : Z -> Z.

Local Abbreviation debounce := (msecs_to_jiffies DEBOUNCE_TIME_MS).
Local Abbreviation run := (Button.run msecs_to_jiffies).
Local Abbreviation step := (Button.step msecs_to_jiffies).

Lemma run_app (a b : list event) (s : state) :
  run (a ++ b) s =
  ((run b (run a s).1).1, (run a s).2 ++ (run b (run a s).1).2).
Proof.
  revert s. induction a as [|e a IH]; intros s; simpl.
  - destruct (Button.run msecs_to_jiffies b s); reflexivity.
  - destruct (Button.step msecs_to_jiffies e s) as [s1 d1]. rewrite IH.
    destruct (Button.run msecs_to_jiffies a s1) as [s2 d2]. simpl.
    rewrite app_assoc. reflexivity.
Qed.

(** With no press counted and no work queued, nothing but a new edge can
    lead to a dispatch. *)
Lemma quiet_step (e : event) (s : state) :
  quiet e -> press_count s = 0 -> button_work s = false ->
  (step e s).2 = [] /\ press_count (step e s).1 = 0 /\
  button_work (step e s).1 = false.
Proof.
  intros Hq Hc Hw. destruct e as [j| | |len off ok|len buf]; simpl.
  - destruct Hq.
  - destruct (press_timer s); simpl; [|auto].
    unfold press_timer_callback. simpl. rewrite Hc. simpl. auto.
  - rewrite Hw. simpl. auto.
  - unfold button_read, snprintf.
    destruct (negb (off =? 0)); simpl; [auto|].
    destruct (len <? _); simpl; [auto|].
    destruct (negb ok); simpl; auto.
  - unfold button_write.
    destruct (len <? 1); simpl; [auto|].
    destruct buf as [cmd|]; simpl; [|auto].
    destruct (cmd =? "r")%char; simpl.
    + rewrite turn_off_all_leds_eq. simpl. auto.
    + destruct (cmd =? "s")%char; simpl; auto.
Qed.

Lemma quiet_run (evs : list event) (s : state) :
  Forall quiet evs -> press_count s = 0 -> button_work s = false ->
  (run evs s).2 = [] /\ press_count (run evs s).1 = 0 /\
  button_work (run evs s).1 = false.
Proof.
  intros Hq. revert s.
  induction Hq as [|e evs He _ IH]; intros s Hc Hw; simpl; [auto|].
  destruct (quiet_step e s He Hc Hw) as (Hd & Hc1 & Hw1).
  destruct (Button.step msecs_to_jiffies e s) as [s1 d1]. simpl in *.
  destruct (IH s1 Hc1 Hw1) as (Hd2 & Hc2 & Hw2).
  destruct (Button.run msecs_to_jiffies evs s1) as [s2 d2]. simpl in *.
  subst. auto.
Qed.


Lemma work_alone (q : state) :
  button_work q = true ->
  run [EvWork] q =
  (button_work_handler (set_button_work false q), [press_count q]).
Proof. intros Hw. simpl. rewrite Hw. reflexivity. Qed.

Lemma last_cons_default (j l : Z) (rest : list Z) :
  default l (last (j :: rest)) = default j (last rest).
Proof.
  destruct rest as [|x rest]; [reflexivity|].
  change (last (j :: x :: rest)) with (last (x :: rest)).
  destruct (last (x :: rest)) eqn:E; [reflexivity|].
  apply last_None in E. discriminate E.
Qed.



(** Spaced presses below 2^31 are accepted presses. *)
Lemma spaced_accepted (l : Z) (ts : list Z) :
  0 <= debounce -> 0 <= l ->
  spaced debounce l ts -> accepted debounce l ts.
Proof.
  intros Hd. revert l. induction ts as [|t ts IH]; intros l Hl Hs; [exact I|].
  destruct Hs as [Ht Hs]. split.
  - rewrite time_before_no_wrap by lia. apply Z.ltb_ge. lia.
  - apply IH; [lia | exact Hs].
Qed.

(** Accepted presses, however many: each is counted and moves the
    debounce time stamp, none is dispatched; the press that makes the count
    reach 5, and every later one, queues the work and stops the timer. *)
Lemma accepted_counted (js : list Z) (s : state) :
  accepted debounce (last_irq_time s) js ->
  0 <= press_count s -> press_count s + Z.of_nat (length js) < 2 ^ 31 ->
  let r := run (map EvIrq js) s in
  let n := press_count s + Z.of_nat (length js) in
  r.2 = [] /\ press_count r.1 = n /\
  last_irq_time r.1 = default (last_irq_time s) (last js) /\
  (button_work s = true -> button_work r.1 = true) /\
  (js <> [] -> 5 <= n -> button_work r.1 = true /\ press_timer r.1 = None) /\
  (js <> [] -> n < 5 ->
     button_work r.1 = button_work s /\ is_Some (press_timer r.1)).
Proof.
  revert s. induction js as [|j js IH]; intros s Ha Hc Hn.
  - simpl. repeat split; try congruence; try lia; auto.
  - destruct Ha as [Hacc Ha]. simpl length in Hn.
    rewrite last_cons_default. simpl.
    rewrite (irq_accepted msecs_to_jiffies j s Hacc).
    rewrite int_small by lia. cbv zeta.
    set (s1 := if 5 <=? press_count s + 1 then _ else _).
    assert (H1 : press_count s1 = press_count s + 1 /\ last_irq_time s1 = j /\
                 (button_work s = true -> button_work s1 = true))
      by (subst s1; destruct (5 <=? press_count s + 1); simpl; auto).
    destruct H1 as (Hc1 & Hl1 & Hw1).
    specialize (IH s1). rewrite Hc1, Hl1 in IH.
    specialize (IH Ha ltac:(lia) ltac:(lia)).
    cbv zeta in IH. destruct IH as (I1 & I2 & I3 & I4 & I5 & I6).
    destruct (Button.run msecs_to_jiffies (map EvIrq js) s1) as [s2 d2] eqn:E.
    simpl in *. subst d2.
    split; [reflexivity|]. split; [lia|]. split; [exact I3|].
    split; [auto|].
    destruct js as [|j' js'].
    + simpl in E. injection E as <-. simpl length.
      subst s1. destruct (Z.leb_spec 5 (press_count s + 1)); simpl.
      * split; intros; [auto | lia].
      * split; intros; [lia | eauto].
    + split.
      * intros _ H5. apply I5; [discriminate | lia].
      * intros _ H5. destruct (I6 ltac:(discriminate) ltac:(lia)) as [Hw Hp].
        split; [|exact Hp]. rewrite Hw. subst s1.
        destruct (Z.leb_spec 5 (press_count s + 1)); [simpl in *; lia|].
        reflexivity.
Qed.

(** Passive events leave the count alone and a queued work queued. *)
Lemma passive_run (mid : list event) (s : state) :
  Forall passive mid ->
  (run mid s).2 = [] /\ press_count (run mid s).1 = press_count s /\
  (button_work s = true -> button_work (run mid s).1 = true).
Proof.
  intros Hp. revert s. induction Hp as [|e mid He _ IH]; intros s; simpl.
  - auto.
  - assert (Hs : (step e s).2 = [] /\
                 press_count (step e s).1 = press_count s /\
                 (button_work s = true -> button_work (step e s).1 = true)).
    { destruct e as [j| | |len off ok|len buf]; simpl in He; try destruct He;
        cbn [Button.step].
      - destruct (press_timer s); [|auto]. cbn [fst snd].
        unfold press_timer_callback. simpl.
        destruct (0 <? press_count s); simpl; auto.
      - unfold button_read, snprintf.
        destruct (negb (off =? 0)); [auto|].
        destruct (len <? _); [auto|]. destruct (negb ok); simpl; auto.
      - unfold button_write. destruct (Z.ltb_spec len 1); [auto|]. lia.
      - unfold button_write. destruct (len <? 1); [auto|].
        destruct buf as [cmd|]; [|auto].
        destruct (Ascii.eqb_spec cmd "r"); [congruence|].
        destruct (cmd =? "s")%char; auto. }
    destruct Hs as (S1 & S2 & S3).
    destruct (Button.step msecs_to_jiffies e s) as [s1 d1]. simpl in *.
    destruct (IH s1) as (I1 & I2 & I3).
    destruct (Button.run msecs_to_jiffies mid s1) as [s2 d2]. simpl in *.
    subst. repeat split; [congruence | auto].
Qed.



End Runs.

(** ** Gestures *)

Section Gestures.

Variable msecs_to_jiffies : Z -> Z.

Local Abbreviation debounce := (msecs_to_jiffies DEBOUNCE_TIME_MS).
Local Abbreviation run := (Button.run msecs_to_jiffies).
Local Abbreviation step := (Button.step msecs_to_jiffies).


(** C6. A reset while a gesture is pending returns [len], clears the
    count, records state 0 and switches every output off in the call
    itself; from then on neither the expiry of the timer that was pending
    nor anything else short of a new press causes a dispatch. *)
Theorem reset_clears_pending_gesture
    (s : state) (d0 d1 d2 : gpio_desc) (len deadline : Z) :
  wired s d0 d1 d2 -> 1 <= len ->
  press_timer s = Some deadline -> button_work s = false ->
  let ret := (button_write len (Some "r"%char) s).1 in
  let s' := (button_write len (Some "r"%char) s).2 in
  let lv := line_value (gpio_trace s') in
  ret = len /\ press_count s' = 0 /\ current_led_state s' = 0 /\
  gpio_trace s' = gpio_trace s ++ [(d0, false); (d1, false); (d2, false)] /\
  (lv d0, lv d1, lv d2) = (Some false, Some false, Some false) /\
  button_work (step EvTimer s').1 = false /\
  (forall evs : list event, Forall quiet evs -> (run evs s').2 = []).
Proof.
  intros [Hgs Hnd] Hlen Ht Hw. apply distinct3 in Hnd as (N01 & N02 & N12).
  unfold button_write.
  replace (len <? 1) with false by (symmetry; apply Z.ltb_ge; lia).
  simpl. rewrite turn_off_all_leds_eq. simpl. rewrite Hgs, Ht. simpl.
  repeat split; try reflexivity.
  - lines. reflexivity.
  - unfold press_timer_callback. simpl. exact Hw.
  - intros evs Hq.
    apply (quiet_run msecs_to_jiffies evs _ Hq); [reflexivity | exact Hw].
Qed.

(** C1, as amended. Completing a gesture, by timeout or by the press
    that makes the count reach 5, queues the work, leaves the timer stopped
    and leaves [press_count] as it is: the count is neither handed over nor
    reset at completion.  The worker handles the value [press_count] has
    when it runs and only then sets it to 0.  So while the work is queued,
    timer expiries, reads and writes other than a reset leave the value to
    be handled unchanged, every press accepted adds one to it (the count
    staying below 2^31), and a reset makes it 0. *)
Theorem handoff_reads_count_when_worker_runs (s : state) :
  (forall deadline : Z,
     press_timer s = Some deadline -> 0 < press_count s ->
     let s1 := (step EvTimer s).1 in
     press_count s1 = press_count s /\ button_work s1 = true /\
     press_timer s1 = None) /\
  (forall jiffies : Z,
     time_before jiffies (ulong (last_irq_time s + debounce)) = false ->
     5 <= int (press_count s + 1) ->
     let s1 := (step (EvIrq jiffies) s).1 in
     press_count s1 = int (press_count s + 1) /\ button_work s1 = true /\
     press_timer s1 = None) /\
  (button_work s = true ->
     ((step EvWork s).2 = [press_count s] /\
      press_count (step EvWork s).1 = 0 /\
      button_work (step EvWork s).1 = false) /\
     (forall mid : list event, Forall passive mid ->
        (run (mid ++ [EvWork]) s).2 = [press_count s]) /\
     (forall js : list Z,
        accepted debounce (last_irq_time s) js ->
        0 <= press_count s ->
        press_count s + Z.of_nat (length js) < 2 ^ 31 ->
        (run (map EvIrq js ++ [EvWork]) s).2 =
        [press_count s + Z.of_nat (length js)]) /\
     (forall len : Z, 1 <= len ->
        (run [EvWrite len (Some "r"%char); EvWork] s).2 = [0])).
Proof.
  split; [|split].
  - intros dl Ht Hc. cbn [Button.step]. rewrite Ht. cbn [fst].
    unfold press_timer_callback. simpl.
    replace (0 <? press_count s) with true by (symmetry; apply Z.ltb_lt; lia).
    repeat split.
  - intros j Hacc H5. cbn [Button.step fst].
    rewrite (irq_accepted msecs_to_jiffies j s Hacc). cbv zeta.
    replace (5 <=? int (press_count s + 1)) with true
      by (symmetry; apply Z.leb_le; lia).
    repeat split.
  - intros Hw. split; [|split; [|split]].
    + cbn [Button.step]. rewrite Hw. cbn [fst snd].
      rewrite button_work_handler_eq. repeat split.
    + intros mid Hp.
      destruct (passive_run msecs_to_jiffies mid s Hp) as (M1 & M2 & M3).
      rewrite run_app, (work_alone _ _ (M3 Hw)). cbn [fst snd].
      rewrite M1, M2. reflexivity.
    + intros js Ha Hc Hn.
      destruct (accepted_counted msecs_to_jiffies js s Ha Hc Hn)
        as (P1 & P2 & _ & P4 & _).
      rewrite run_app, (work_alone _ _ (P4 Hw)). cbn [fst snd].
      rewrite P1, P2. reflexivity.
    + intros len Hlen. cbn [Button.run Button.step].
      unfold button_write.
      replace (len <? 1) with false by (symmetry; apply Z.ltb_ge; lia).
      simpl. rewrite turn_off_all_leds_eq. simpl. rewrite Hw. reflexivity.
Qed.

End Gestures.



Lemma reset_clears_pending_gesture_witness :
  let s := (run hz100 [EvIrq 1000; EvIrq 1020; EvIrq 1040] probed).1 in
  (press_count s = 3 /\ wired s 25%nat 24%nat 23%nat /\
   press_timer s = Some 1140 /\ button_work s = false) /\
  press_count (button_write 1 (Some "r"%char) s).2 = 0.
Proof.
  intros s.
  assert (W : wired s 25%nat 24%nat 23%nat)
    by (split; [reflexivity | compute_done]).
  assert (L : 1 <= 1) by lia.
  split; [exact (conj eq_refl (conj W (conj eq_refl eq_refl)))|].
  exact (proj1 (proj2 (reset_clears_pending_gesture hz100 s _ _ _ 1 1140
                         W L eq_refl eq_refl))).
Defined.

Lemma handoff_reads_count_when_worker_runs_witness :
  let s := (run hz100 [EvIrq 1000; EvTimer] probed).1 in
  (button_work s = true /\
   Forall passive [EvRead 200 0 true; EvWrite 1 (Some "s"%char); EvTimer]) /\
  (run hz100 ([EvRead 200 0 true; EvWrite 1 (Some "s"%char); EvTimer]
              ++ [EvWork]) s).2 = [1].
Proof.
  intros s.
  assert (P : Forall passive
                [EvRead 200 0 true; EvWrite 1 (Some "s"%char); EvTimer])
    by (apply List.Forall_cons; [exact I|];
        apply List.Forall_cons; [right; discriminate|];
        apply List.Forall_cons; [exact I | apply List.Forall_nil]).
  split; [exact (conj eq_refl P)|].
  exact (proj1 (proj2 (proj2 (proj2
           (handoff_reads_count_when_worker_runs hz100 s)) eq_refl)) _ P).
Defined.

(** C1 as written fails: a one-press gesture completes by timeout with
    [press_count] still 1, a press accepted before the worker runs makes it
    2, and the worker handles 2. *)
Lemma handoff_changed_by_next_press :
  let s1 := (run hz100 [EvIrq 1000; EvTimer] probed).1 in
  button_work s1 = true /\ press_count s1 = 1 /\ press_count s1 <> 0 /\
  (run hz100 [EvIrq 1101; EvWork] s1).2 = [2] /\
  (run hz100 [EvIrq 1101; EvWork] s1).2 <> [press_count s1].
Proof.
  repeat split; try reflexivity; vm_compute; congruence.
Qed.

(** ** The recorded LED state *)

Section Invariant.

Variable msecs_to_jiffies : Z -> Z.

(** The loop of the probe fills the three slots in order and stops at the
    first NULL. *)
Lemma probe_led_loop_eq (leds : Led.state) (s : state) :
  length (led_gpios s) = 3%nat ->
  let p0 := Led.led_get_gpio 0 leds in
  let p1 := Led.led_get_gpio 1 leds in
  let p2 := Led.led_get_gpio 2 leds in
  (p0 <> NULL /\ p1 <> NULL /\ p2 <> NULL /\
   probe_led_loop leds 0 3 s = (true, set_led_gpios [p0; p1; p2] s)) \/
  ((p0 = NULL \/ p1 = NULL \/ p2 = NULL) /\
   (probe_led_loop leds 0 3 s).1 = false /\
   gpio_trace (probe_led_loop leds 0 3 s).2 = gpio_trace s).
Proof.
  intros Hl. destruct s as [pc bp cl li pt bw gs tr]. simpl in Hl.
  destruct gs as [|a [|b [|c [|]]]]; try discriminate Hl.
  cbv zeta. simpl. change (Z.of_nat 0) with 0. change (Z.of_nat 1) with 1.
  change (Z.of_nat 2) with 2.
  destruct (Led.led_get_gpio 0 leds) as [|e0|d0];
    [right; simpl; auto| |];
    (destruct (Led.led_get_gpio 1 leds) as [|e1|d1];
     [right; simpl; auto| |]);
    (destruct (Led.led_get_gpio 2 leds) as [|e2|d2];
     [right; simpl; auto| |]);
    left; repeat split; discriminate.
Qed.

Lemma probe_led_loop_frame (leds : Led.state) (i n : nat) (s : state) :
  let s' := (probe_led_loop leds i n s).2 in
  press_count s' = press_count s /\ button_pressed s' = button_pressed s /\
  current_led_state s' = current_led_state s /\
  last_irq_time s' = last_irq_time s /\ gpio_trace s' = gpio_trace s /\
  press_timer s' = press_timer s /\ button_work s' = button_work s /\
  length (led_gpios s') = length (led_gpios s).
Proof.
  revert i s. induction n as [|n IH]; intros i s; simpl.
  - repeat split.
  - destruct (Led.led_get_gpio (Z.of_nat i) leds) as [|e|d] eqn:E; simpl.
    + rewrite length_insert. repeat split.
    + specialize (IH (S i)
                     (set_led_gpios (<[i := ERR_PTR e]> (led_gpios s)) s)).
      cbv zeta in IH. simpl in IH. rewrite length_insert in IH. exact IH.
    + specialize (IH (S i)
                     (set_led_gpios (<[i := Desc d]> (led_gpios s)) s)).
      cbv zeta in IH. simpl in IH. rewrite length_insert in IH. exact IH.
Qed.

(** The probe leaves the counters, the pressed flag, the recorded state
    and the debounce time stamp as it found them, whatever it returns. *)
Lemma button_probe_frame (env : probe_env) (leds : Led.state) (s : state) :
  let s' := (button_probe env leds s).2 in
  press_count s' = press_count s /\ button_pressed s' = button_pressed s /\
  current_led_state s' = current_led_state s /\
  last_irq_time s' = last_irq_time s /\
  length (led_gpios s') = length (led_gpios s).
Proof.
  cbv zeta. unfold button_probe.
  destruct (button_gpio_err env); [simpl; auto|].
  pose proof (probe_led_loop_frame leds 0 3 s) as F. cbv zeta in F.
  destruct (probe_led_loop leds 0 3 s) as [complete s1]. simpl in F.
  destruct F as (F1 & F2 & F3 & F4 & F5 & F6 & F7 & F8).
  destruct (negb complete); [simpl; auto|].
  destruct (gpiod_to_irq_ret env <? 0); [simpl; auto|].
  destruct (negb (request_irq_ret env =? 0)); [simpl; auto|].
  destruct (alloc_chrdev_ret env <? 0); [simpl; auto|].
  destruct (class_create_err env); [simpl; auto|].
  destruct (cdev_add_ret env <? 0); [simpl; auto|].
  destruct (device_create_err env); [simpl; auto|].
  cbn [snd]. rewrite turn_off_all_leds_eq. simpl. auto.
Qed.

(** What a probe that returns 0 has done: the three pointers it took
    from the LED driver are not NULL, the slots hold them, the timer and
    the work item are fresh, and one pass of the loop has switched the
    LEDs off. *)
Lemma button_probe_success (env : probe_env) (leds : Led.state) (s : state) :
  length (led_gpios s) = 3%nat ->
  (button_probe env leds s).1 = 0 ->
  let p0 := Led.led_get_gpio 0 leds in
  let p1 := Led.led_get_gpio 1 leds in
  let p2 := Led.led_get_gpio 2 leds in
  p0 <> NULL /\ p1 <> NULL /\ p2 <> NULL /\
  (button_probe env leds s).2 =
  set_gpio_trace
    (gpio_trace s ++ loop_writes false [p0; p1; p2])
    (set_button_work false
       (set_press_timer None (set_led_gpios [p0; p1; p2] s))).
Proof.
  intros Hl. cbv zeta. unfold button_probe.
  destruct (button_gpio_err env); [simpl; discriminate|].
  destruct (probe_led_loop_eq leds s Hl) as [(N0 & N1 & N2 & ->)|(_ & E & _)];
    [|destruct (probe_led_loop leds 0 3 s) as [c s1]; simpl in E; subst c;
      simpl; discriminate].
  cbn [negb].
  destruct (Z.ltb_spec (gpiod_to_irq_ret env) 0); [simpl; lia|].
  destruct (Z.eqb_spec (request_irq_ret env) 0); [|simpl; lia].
  cbn [negb].
  destruct (Z.ltb_spec (alloc_chrdev_ret env) 0); [simpl; lia|].
  destruct (class_create_err env); [simpl; discriminate|].
  destruct (Z.ltb_spec (cdev_add_ret env) 0); [simpl; lia|].
  destruct (device_create_err env); [simpl; discriminate|].
  intros _. repeat split; try assumption.
  cbn [snd]. rewrite turn_off_all_leds_eq. reflexivity.
Qed.

(** The probe returns 0 when every kernel call succeeds and none of the
    three pointers is NULL. *)
Lemma button_probe_ok (env : probe_env) (leds : Led.state) (s : state) :
  length (led_gpios s) = 3%nat -> env_ok env ->
  Led.led_get_gpio 0 leds <> NULL -> Led.led_get_gpio 1 leds <> NULL ->
  Led.led_get_gpio 2 leds <> NULL ->
  (button_probe env leds s).1 = 0.
Proof.
  intros Hl (E1 & E2 & E3 & E4 & E5 & E6 & E7) N0 N1 N2.
  unfold button_probe. rewrite E1.
  destruct (probe_led_loop_eq leds s Hl) as [(_ & _ & _ & ->)|([H|[H|H]] & _)];
    [|contradiction..].
  cbn [negb].
  replace (gpiod_to_irq_ret env <? 0) with false
    by (symmetry; apply Z.ltb_ge; lia).
  rewrite E3. cbn [Z.eqb negb].
  replace (alloc_chrdev_ret env <? 0) with false
    by (symmetry; apply Z.ltb_ge; lia).
  rewrite E5.
  replace (cdev_add_ret env <? 0) with false
    by (symmetry; apply Z.ltb_ge; lia).
  rewrite E7. reflexivity.
Qed.

(** It returns -ENODEV, and has written no line, when its own GPIO is
    there and one of the three pointers is NULL. *)
Lemma button_probe_null (env : probe_env) (leds : Led.state) (s : state) :
  length (led_gpios s) = 3%nat -> button_gpio_err env = None ->
  (exists i : Z, 0 <= i < 3 /\ Led.led_get_gpio i leds = NULL) ->
  (button_probe env leds s).1 = - ENODEV /\
  gpio_trace (button_probe env leds s).2 = gpio_trace s.
Proof.
  intros Hl He (i & Hi & Hn). unfold button_probe. rewrite He.
  destruct (probe_led_loop_eq leds s Hl)
    as [(N0 & N1 & N2 & _)|(_ & E & Et)].
  - assert (C : i = 0 \/ i = 1 \/ i = 2) by lia.
    destruct C as [->|[->| ->]]; contradiction.
  - destruct (probe_led_loop leds 0 3 s) as [c s1]. simpl in E, Et.
    subst c. simpl. split; [reflexivity | exact Et].
Qed.

Lemma button_remove_eq (s : state) :
  button_remove s =
  set_gpio_trace (gpio_trace s ++ loop_writes false (led_gpios s))
                 (set_button_work false (set_press_timer None s)).
Proof. unfold button_remove. rewrite turn_off_all_leds_eq. reflexivity. Qed.

Lemma reachable_step (e : event) (s : state) :
  reachable msecs_to_jiffies s ->
  reachable msecs_to_jiffies (step msecs_to_jiffies e s).1.
Proof. apply life_step. Qed.

Lemma step_led_state (e : event) (s : state) :
  0 <= current_led_state s <= 4 ->
  0 <= current_led_state (step msecs_to_jiffies e s).1 <= 4.
Proof.
  intros H. destruct e as [j| | |len off ok|len buf]; cbn [Button.step fst].
  - unfold button_irq_handler.
    destruct (time_before _ _); [exact H|]. simpl.
    destruct (5 <=? _); exact H.
  - destruct (press_timer s); [|exact H]. cbn [fst].
    unfold press_timer_callback. simpl. destruct (0 <? _); exact H.
  - destruct (button_work s); [|exact H]. cbn [fst].
    rewrite button_work_handler_eq. simpl. apply recorded_state_range.
  - unfold button_read, snprintf.
    destruct (negb (off =? 0)); [exact H|].
    destruct (len <? _); [exact H|]. destruct (negb ok); exact H.
  - unfold button_write.
    destruct (len <? 1); [exact H|]. destruct buf as [cmd|]; [|exact H].
    destruct (cmd =? "r")%char.
    + simpl. rewrite turn_off_all_leds_eq. simpl. lia.
    + destruct (cmd =? "s")%char; exact H.
Qed.

Lemma led_state_range (s : state) :
  reachable msecs_to_jiffies s -> 0 <= current_led_state s <= 4.
Proof.
  unfold reachable. generalize true.
  induction 1 as [|env leds s _ IH | b e s _ IH | s _ IH].
  - simpl. lia.
  - destruct (button_probe_frame env leds s) as (_ & _ & -> & _). exact IH.
  - apply step_led_state, IH.
  - rewrite button_remove_eq. exact IH.
Qed.

Lemma led_status_known (st : Z) :
  0 <= st <= 4 ->
  In (led_status st)
     ["All LEDs OFF"; "LED 0 (Green) ON"; "LED 1 (White) ON";
      "LED 2 (Yellow) ON"; "All LEDs ON"]%string.
Proof.
  intros H.
  assert (C : st = 0 \/ st = 1 \/ st = 2 \/ st = 3 \/ st = 4) by lia.
  destruct C as [->|[->|[->|[->| ->]]]]; simpl; auto 6.
Qed.

(** C10. In every state the driver can reach after a successful probe,
    [current_led_state] is between 0 and 4, so the status text is never
    "Unknown state". *)
Theorem led_state_always_known (s : state) :
  reachable msecs_to_jiffies s ->
  0 <= current_led_state s <= 4 /\
  led_status (current_led_state s) <> "Unknown state"%string.
Proof.
  intros Hr. pose proof (led_state_range s Hr) as H. split; [exact H|].
  assert (C : current_led_state s = 0 \/ current_led_state s = 1 \/
              current_led_state s = 2 \/ current_led_state s = 3 \/
              current_led_state s = 4) by lia.
  destruct C as [->|[->|[->|[->| ->]]]]; discriminate.
Qed.

End Invariant.

Lemma reachable_probed : reachable hz100 probed.
Proof. exact (life_probe hz100 probe_ok board loaded (life_loaded hz100)). Qed.

Lemma led_state_always_known_witness :
  reachable hz100 (step hz100 (EvIrq 1000) probed).1 /\
  led_status (current_led_state (step hz100 (EvIrq 1000) probed).1)
  <> "Unknown state"%string.
Proof.
  assert (R : reachable hz100 (step hz100 (EvIrq 1000) probed).1)
    by (apply reachable_step, reachable_probed).
  split; [exact R|].
  exact (proj2 (led_state_always_known hz100 _ R)).
Defined.

(** ** The status query *)

Lemma string_length_app (a b : string) :
  String.length (a ++ b) = (String.length a + String.length b)%nat.
Proof. induction a as [|c a IH]; simpl; [reflexivity | rewrite IH; reflexivity]. Qed.

Lemma substring_all (s : string) (n : nat) :
  (String.length s <= n)%nat -> substring 0 n s = s.
Proof.
  revert n. induction s as [|c s IH]; intros n H.
  - destruct n; reflexivity.
  - destruct n as [|n]; simpl in H; [lia|].
    simpl. rewrite IH by lia. reflexivity.
Qed.

Lemma fmt_u_length (fuel : nat) (n : Z) (acc : string) :
  (String.length (fmt_u fuel n acc) <= fuel + String.length acc)%nat.
Proof.
  revert n acc. induction fuel as [|fuel IH]; intros n acc; simpl; [lia|].
  destruct (n / 10 =? 0); simpl; [lia|].
  specialize (IH (n / 10) (String (digit (n mod 10)) acc)). simpl in IH. lia.
Qed.

Lemma fmt_d_length (n : Z) : (String.length (fmt_d n) <= 11)%nat.
Proof.
  unfold fmt_d. destruct (n <? 0); simpl String.length.
  - pose proof (fmt_u_length 10 (- n) EmptyString) as H. simpl in H. lia.
  - pose proof (fmt_u_length 10 n EmptyString) as H. simpl in H. lia.
Qed.

(** The status text always fits the 200-byte buffer. *)
Lemma status_text_length (s : state) :
  0 <= current_led_state s <= 4 ->
  (String.length (status_text s) <= 199)%nat.
Proof.
  intros H. unfold status_text. rewrite !string_length_app.
  pose proof (fmt_d_length (press_count s)) as Hd.
  assert (Hl : (String.length (led_status (current_led_state s)) <= 17)%nat).
  { assert (C : current_led_state s = 0 \/ current_led_state s = 1 \/
                current_led_state s = 2 \/ current_led_state s = 3 \/
                current_led_state s = 4) by lia.
    destruct C as [->|[->|[->|[->| ->]]]]; simpl; lia. }
  assert (Hp : (String.length (if button_pressed s then "Pressed"
                               else "Released") <= 8)%nat)
    by (destruct (button_pressed s); simpl; lia).
  simpl String.length. lia.
Qed.

Section Status.

Variable msecs_to_jiffies : Z -> Z.

(** C8. A read that succeeds returns the status text: the pressed flag,
    [press_count] and the text of the recorded LED state, which is one of
    the five known ones; it clears the pressed flag and changes nothing
    else. *)
Theorem status_query (s : state) (len offset : Z) (user_ok : bool) :
  reachable msecs_to_jiffies s ->
  let r := button_read len offset user_ok s in
  0 < read_ret r ->
  exists led : string,
    ["All LEDs OFF"; "LED 0 (Green) ON"; "LED 1 (White) ON";
     "LED 2 (Yellow) ON"; "All LEDs ON"]%string
      !! Z.to_nat (current_led_state s) = Some led /\
    read_data r =
      Some ("Button Status: "
            ++ (if button_pressed s then "Pressed" else "Released")
            ++ newline ++ "Press Count: " ++ fmt_d (press_count s)
            ++ newline ++ "Current State: " ++ led ++ newline)%string /\
    button_pressed (read_state r) = false /\
    press_count (read_state r) = press_count s /\
    current_led_state (read_state r) = current_led_state s /\
    read_state r = set_button_pressed false s.
Proof.
  intros Hr r Hret. pose proof (led_state_range msecs_to_jiffies s Hr) as Hrange.
  exists (led_status (current_led_state s)). split.
  { assert (C : current_led_state s = 0 \/ current_led_state s = 1 \/
                current_led_state s = 2 \/ current_led_state s = 3 \/
                current_led_state s = 4) by lia.
    destruct C as [->|[->|[->|[->| ->]]]]; reflexivity. }
  pose proof (status_text_length s Hrange) as Hlen.
  subst r. unfold button_read, snprintf in *.
  destruct (negb (offset =? 0)); [simpl in Hret; lia|].
  destruct (len <? _); [simpl in Hret; unfold EINVAL in Hret; lia|].
  destruct (negb user_ok); [simpl in Hret; unfold EFAULT in Hret; lia|].
  cbn [read_data read_state]. rewrite Nat2Z.id.
  rewrite (substring_all (status_text s) (200 - 1)) by exact Hlen.
  rewrite substring_all by lia.
  repeat split.
Qed.

End Status.

Lemma status_query_witness :
  (reachable hz100 probed /\ 0 < read_ret (button_read 200 0 true probed)) /\
  button_pressed (read_state (button_read 200 0 true probed)) = false.
Proof.
  assert (P : 0 < read_ret (button_read 200 0 true probed))
    by (vm_compute; reflexivity).
  split; [exact (conj reachable_probed P)|].
  destruct (status_query hz100 probed 200 0 true reachable_probed P)
    as (led & _ & _ & H & _).
  exact H.
Defined.

(** ** Malformed commands *)

(** C9. A write whose command byte is not one the device knows returns
    an error (-EINVAL, or -EFAULT when the length is 0) and leaves the
    driver state, output lines included, exactly as it was; this holds for
    the button device and for each LED device. *)
Theorem malformed_command_rejected (cmd : ascii) (len : Z) :
  (cmd <> "r"%char -> cmd <> "s"%char ->
   forall s : state,
     button_write len (Some cmd) s =
     (if len <? 1 then - EFAULT else - EINVAL, s)) /\
  (cmd <> "1"%char -> cmd <> "0"%char -> cmd <> "t"%char ->
   forall (led_index : nat) (s : Led.state),
     Led.led_write led_index len (Some cmd) s =
     (if len <? 1 then - EFAULT else - EINVAL, s)).
Proof.
  split.
  - intros Hr Hs s. unfold button_write.
    apply Ascii.eqb_neq in Hr, Hs. rewrite Hr, Hs.
    destruct (len <? 1); reflexivity.
  - intros H1 H0 Ht i s. unfold Led.led_write.
    apply Ascii.eqb_neq in H1, H0, Ht. rewrite H1, H0, Ht.
    destruct (len <? 1); reflexivity.
Qed.

Lemma malformed_command_rejected_witness :
  ("x"%char <> "r"%char /\ "x"%char <> "s"%char) /\
  button_write 1 (Some "x"%char) probed = (- EINVAL, probed).
Proof.
  assert (Hr : "x"%char <> "r"%char) by discriminate.
  assert (Hs : "x"%char <> "s"%char) by discriminate.
  split; [exact (conj Hr Hs)|].
  exact (proj1 (malformed_command_rejected "x"%char 1) Hr Hs probed).
Defined.

(** ** Sanity checks of the model *)

Example fmt_d_examples :
  fmt_d 0 = "0"%string /\ fmt_d 5 = "5"%string /\
  fmt_d 120 = "120"%string /\ fmt_d (-7) = "-7"%string /\
  fmt_d 2147483647 = "2147483647"%string /\
  fmt_d (-2147483648) = "-2147483648"%string.
Proof. repeat split; reflexivity. Qed.

(** Presses at 0, 200 and 400 ms after tick 1000, then the timeout: the
    worker handles 3 and the third LED alone is on. *)
Example three_presses_select_third_led :
  let r := run hz100 [EvIrq 1000; EvIrq 1020; EvIrq 1040; EvTimer; EvWork]
               probed in
  r.2 = [3] /\ current_led_state r.1 = 3 /\
  map (line_value (gpio_trace r.1)) [25%nat; 24%nat; 23%nat] =
  [Some false; Some false; Some true].
Proof. repeat split; reflexivity. Qed.

(** * Further properties of the button driver *)

Section ButtonInvariants.

Variable msecs_to_jiffies : Z -> Z.

Local Abbreviation debounce := (msecs_to_jiffies DEBOUNCE_TIME_MS).
Local Abbreviation run := (Button.run msecs_to_jiffies).
Local Abbreviation step := (Button.step msecs_to_jiffies).
Local Abbreviation reachable := (Button.reachable msecs_to_jiffies).

(** The interrupt handler never touches the outputs or their record. *)
Lemma irq_frame (jiffies : Z) (s : state) :
  let s' := button_irq_handler msecs_to_jiffies jiffies s in
  led_gpios s' = led_gpios s /\ gpio_trace s' = gpio_trace s /\
  current_led_state s' = current_led_state s.
Proof.
  unfold button_irq_handler. destruct (time_before _ _); [auto|].
  simpl. destruct (5 <=? _); simpl; auto.
Qed.

(** What one event can do to the outputs: nothing, the work handler's
    actuation, or the reset's. *)
Lemma step_outputs (e : event) (s : state) :
  let s' := (step e s).1 in
  led_gpios s' = led_gpios s /\
  ((gpio_trace s' = gpio_trace s /\
    current_led_state s' = current_led_state s) \/
   (gpio_trace s' =
      gpio_trace s ++ handler_writes (press_count s) (led_gpios s) /\
    current_led_state s' = recorded_state (press_count s)) \/
   (gpio_trace s' = gpio_trace s ++ loop_writes false (led_gpios s) /\
    current_led_state s' = 0)).
Proof.
  destruct e as [j| | |len off ok|len buf]; cbn [Button.step fst].
  - destruct (irq_frame j s) as (H1 & H2 & H3). auto.
  - destruct (press_timer s); [|auto]. cbn [fst].
    unfold press_timer_callback. simpl. destruct (0 <? _); simpl; auto.
  - destruct (button_work s); [|auto]. cbn [fst].
    rewrite button_work_handler_eq. simpl. auto.
  - unfold button_read, snprintf.
    destruct (negb (off =? 0)); [auto|].
    destruct (len <? _); [auto|]. destruct (negb ok); simpl; auto.
  - unfold button_write.
    destruct (len <? 1); [auto|]. destruct buf as [cmd|]; [|auto].
    destruct (cmd =? "r")%char.
    + simpl. rewrite turn_off_all_leds_eq. simpl. auto.
    + destruct (cmd =? "s")%char; auto.
Qed.

Lemma run_led_gpios (evs : list event) (s : state) :
  led_gpios (run evs s).1 = led_gpios s.
Proof.
  revert s. induction evs as [|e evs IH]; intros s; simpl; [reflexivity|].
  pose proof (step_outputs e s) as [H _]. cbv zeta in H.
  destruct (Button.step msecs_to_jiffies e s) as [s1 d1]. simpl in H.
  specialize (IH s1).
  destruct (Button.run msecs_to_jiffies evs s1) as [s2 d2]. simpl in *.
  congruence.
Qed.

(** The three slots exist in every phase and are filled while the
    driver is bound. *)
Lemma lifecycle_slots (b : bool) (s : state) :
  lifecycle msecs_to_jiffies b s ->
  length (led_gpios s) = 3%nat /\
  (b = true ->
   exists p0 p1 p2,
     led_gpios s = [p0; p1; p2] /\ p0 <> NULL /\ p1 <> NULL /\ p2 <> NULL).
Proof.
  induction 1 as [|env leds s _ [IHl _] | b e s _ [IHl IHb] | s _ [IHl _]].
  - split; [reflexivity | discriminate].
  - split.
    + destruct (button_probe_frame env leds s) as (_ & _ & _ & _ & ->).
      exact IHl.
    + intros Hb. apply Z.eqb_eq in Hb.
      destruct (button_probe_success env leds s IHl Hb)
        as (N0 & N1 & N2 & ->).
      eexists _, _, _. split; [reflexivity | auto].
  - destruct (step_outputs e s) as [H _]. cbv zeta in H. rewrite H.
    split; assumption.
  - rewrite button_remove_eq. split; [exact IHl | discriminate].
Qed.

(** X1. After a successful probe none of the three descriptor slots is
    NULL, and no sequence of interrupts, timer expiries, worker runs,
    reads and writes ever changes them. *)
Theorem descriptors_fixed (s : state) :
  reachable s ->
  (exists p0 p1 p2,
     led_gpios s = [p0; p1; p2] /\
     p0 <> NULL /\ p1 <> NULL /\ p2 <> NULL) /\
  (forall evs : list event, led_gpios (run evs s).1 = led_gpios s).
Proof.
  intros Hr. split; [|intros evs; apply run_led_gpios].
  apply (lifecycle_slots true s Hr). reflexivity.
Qed.

Lemma handler_lines_match (s : state) (d0 d1 d2 : gpio_desc) (n : Z) :
  wired s d0 d1 d2 ->
  let st := recorded_state n in
  let lv := line_value (gpio_trace s ++ handler_writes n (led_gpios s)) in
  lv d0 = Some ((st =? 1) || (st =? 4)) /\
  lv d1 = Some ((st =? 2) || (st =? 4)) /\
  lv d2 = Some ((st =? 3) || (st =? 4)).
Proof.
  intros [Hgs Hnd]. apply distinct3 in Hnd as (N01 & N02 & N12).
  rewrite Hgs. cbv zeta.
  destruct (decide (n = 1)) as [->|N1]; [simpl; lines; auto|].
  destruct (decide (n = 2)) as [->|N2]; [simpl; lines; auto|].
  destruct (decide (n = 3)) as [->|N3]; [simpl; lines; auto|].
  destruct (decide (n = 4)) as [->|N4]; [simpl; lines; auto|].
  unfold handler_writes, recorded_state. rewrite !switch_default by assumption.
  simpl; lines; auto.
Qed.



Lemma reachable_run (evs : list event) (s : state) :
  reachable s -> reachable (run evs s).1.
Proof.
  revert s. induction evs as [|e evs IH]; intros s Hr; simpl; [exact Hr|].
  pose proof (reachable_step msecs_to_jiffies e s Hr) as H1.
  destruct (Button.step msecs_to_jiffies e s) as [s1 d1]. simpl in H1.
  specialize (IH s1 H1).
  destruct (Button.run msecs_to_jiffies evs s1) as [s2 d2]. exact IH.
Qed.

End ButtonInvariants.

Lemma descriptors_fixed_witness :
  reachable hz100 probed /\
  led_gpios (run hz100 [EvIrq 1000; EvTimer; EvWork] probed).1 =
  led_gpios probed.
Proof.
  split; [exact reachable_probed|].
  exact (proj2 (descriptors_fixed hz100 probed reachable_probed)
               [EvIrq 1000; EvTimer; EvWork]).
Defined.


(** A remove and a new probe keep the record: after a three-press
    gesture has selected LED 2, unbinding and binding again leaves the
    recorded state at 3 with every line written off. *)
Example rebind_keeps_recorded_state :
  let s := (run hz100 [EvIrq 1000; EvIrq 1020; EvIrq 1040; EvTimer; EvWork]
                probed).1 in
  let s' := (button_probe probe_ok board (button_remove s)).2 in
  (button_probe probe_ok board (button_remove s)).1 = 0 /\
  current_led_state s' = 3 /\
  map (line_value (gpio_trace s')) [25%nat; 24%nat; 23%nat] =
  [Some false; Some false; Some false].
Proof. repeat split. Qed.

Section ButtonGestures.

Variable msecs_to_jiffies : Z -> Z.

Local Abbreviation debounce := (msecs_to_jiffies DEBOUNCE_TIME_MS).
Local Abbreviation run := (Button.run msecs_to_jiffies).
Local Abbreviation step := (Button.step msecs_to_jiffies).

(** Presses that pass the filter, however many: each is counted, none
    touches the outputs, and from the fifth on the work is queued and the
    timer stopped. *)
Lemma presses_counted (ts : list Z) (s : state) :
  0 <= debounce -> 0 <= last_irq_time s ->
  spaced debounce (last_irq_time s) ts ->
  0 <= press_count s -> press_count s + Z.of_nat (length ts) < 2 ^ 31 ->
  let r := run (map EvIrq ts) s in
  let n := press_count s + Z.of_nat (length ts) in
  r.2 = [] /\ press_count r.1 = n /\
  (led_gpios r.1 = led_gpios s /\ gpio_trace r.1 = gpio_trace s /\
   current_led_state r.1 = current_led_state s) /\
  (ts <> [] -> 5 <= n -> button_work r.1 = true /\ press_timer r.1 = None) /\
  (ts <> [] -> n < 5 ->
     button_work r.1 = button_work s /\ is_Some (press_timer r.1)).
Proof.
  revert s. induction ts as [|t ts IH]; intros s Hd Hl Hs Hc Hn; simpl.
  - repeat split; try congruence; lia.
  - destruct Hs as [Ht Hs]. simpl length in Hn.
    assert (Hacc : time_before t (ulong (last_irq_time s + debounce)) = false).
    { rewrite time_before_no_wrap by lia. apply Z.ltb_ge. lia. }
    rewrite (irq_accepted msecs_to_jiffies t s Hacc).
    rewrite int_small by lia. cbv zeta.
    set (s1 := if 5 <=? press_count s + 1 then _ else _).
    assert (H1 : press_count s1 = press_count s + 1 /\ last_irq_time s1 = t /\
                 led_gpios s1 = led_gpios s /\ gpio_trace s1 = gpio_trace s /\
                 current_led_state s1 = current_led_state s)
      by (subst s1; destruct (5 <=? press_count s + 1); simpl; auto).
    destruct H1 as (Hc1 & Hl1 & Hg1 & Ht1 & Hs1).
    specialize (IH s1 Hd). rewrite Hc1, Hl1 in IH.
    specialize (IH ltac:(lia) Hs ltac:(lia) ltac:(lia)).
    cbv zeta in IH. destruct IH as (I1 & I2 & (I3 & I4 & I5) & I6 & I7).
    destruct (Button.run msecs_to_jiffies (map EvIrq ts) s1) as [s2 d2] eqn:E.
    simpl in *. subst d2.
    split; [reflexivity|]. split; [lia|].
    split; [repeat split; congruence|].
    destruct ts as [|t' ts'].
    + simpl in E. injection E as <-. simpl length.
      subst s1. destruct (Z.leb_spec 5 (press_count s + 1)); simpl.
      * split; intros; [auto | lia].
      * split; intros; [lia | eauto].
    + split.
      * intros _ H5. apply I6; [discriminate | lia].
      * intros _ H5. destruct (I7 ltac:(discriminate) ltac:(lia)) as [Hw Hp].
        split; [|exact Hp]. rewrite Hw. subst s1.
        destruct (Z.leb_spec 5 (press_count s + 1)); [simpl in *; lia|].
        reflexivity.
Qed.


(** X4. From an idle driver, five or more presses spaced by the debounce
    window or more, with the worker running only after the last: the work
    is queued by the fifth press and stays queued once, the timer is
    stopped, and the worker then switches every LED off, records state 0
    and clears the count, as for exactly five. *)
Theorem five_or_more_presses_switch_off
    (s : state) (d0 d1 d2 : gpio_desc) (ts : list Z) :
  0 <= debounce -> 0 <= last_irq_time s ->
  press_count s = 0 -> button_work s = false ->
  wired s d0 d1 d2 ->
  spaced debounce (last_irq_time s) ts ->
  5 <= Z.of_nat (length ts) < 2 ^ 31 ->
  let q := (run (map EvIrq ts) s).1 in
  let r := run (map EvIrq ts ++ [EvWork]) s in
  button_work q = true /\ press_timer q = None /\
  r.2 = [Z.of_nat (length ts)] /\
  current_led_state r.1 = 0 /\
  (line_value (gpio_trace r.1) d0, line_value (gpio_trace r.1) d1,
   line_value (gpio_trace r.1) d2) = (Some false, Some false, Some false) /\
  press_count r.1 = 0 /\ button_work r.1 = false.
Proof.
  intros Hd Hl Hc Hw W Hs Hlen.
  pose proof (presses_counted ts s Hd Hl Hs ltac:(lia) ltac:(lia))
    as (P1 & P2 & (P3 & P4 & P5) & P6 & _).
  assert (Hne : ts <> []) by (intros ->; simpl in Hlen; lia).
  destruct (P6 Hne ltac:(lia)) as [Pw Pt].
  cbv zeta. split; [exact Pw|]. split; [exact Pt|].
  rewrite run_app, (work_alone _ _ Pw).
  cbn [fst snd]. rewrite P1, button_work_handler_eq. simpl.
  rewrite P2, P3, P4, Hc.
  set (n := 0 + Z.of_nat (length ts)).
  assert (Hrec : recorded_state n = 0)
    by (unfold recorded_state; rewrite switch_default by lia; reflexivity).
  split; [f_equal; lia|]. split; [exact Hrec|]. split; [|auto].
  destruct (handler_lines_match s d0 d1 d2 n W) as (L0 & L1 & L2).
  rewrite Hrec in L0, L1, L2. simpl in L0, L1, L2.
  rewrite L0, L1, L2. reflexivity.
Qed.

(** Edges inside the debounce window are dropped, one after the other. *)
Lemma bounces_dropped (js : list Z) (s : state) :
  0 <= debounce <= 2 ^ 31 ->
  bouncing debounce (last_irq_time s) js ->
  run (map EvIrq js) s = (s, []).
Proof.
  intros Hd Hb. induction Hb as [|j js Hj _ IH]; simpl; [reflexivity|].
  rewrite irq_rejected.
  - rewrite IH. reflexivity.
  - rewrite time_before_no_wrap by lia. apply Z.ltb_lt. lia.
Qed.

(** X5. A press with its bounces counts once: after an accepted edge at
    tick [t], any number of further edges before [t] plus the debounce
    window leave the driver exactly as the accepted edge left it. *)
Theorem press_with_bounces_counts_once (s : state) (t : Z) (js : list Z) :
  0 <= debounce <= 2 ^ 31 ->
  time_before t (ulong (last_irq_time s + debounce)) = false ->
  bouncing debounce t js ->
  run (EvIrq t :: map EvIrq js) s =
  (button_irq_handler msecs_to_jiffies t s, []) /\
  press_count (run (EvIrq t :: map EvIrq js) s).1 = int (press_count s + 1).
Proof.
  intros Hd Hacc Hb.
  assert (Hlast : last_irq_time (button_irq_handler msecs_to_jiffies t s) = t).
  { rewrite (irq_accepted msecs_to_jiffies t s Hacc). cbv zeta.
    destruct (5 <=? _); reflexivity. }
  assert (Hrun : run (EvIrq t :: map EvIrq js) s =
                 (button_irq_handler msecs_to_jiffies t s, [])).
  { simpl. rewrite bounces_dropped; [reflexivity | exact Hd |].
    rewrite Hlast. exact Hb. }
  split; [exact Hrun|]. rewrite Hrun. simpl.
  rewrite (irq_accepted msecs_to_jiffies t s Hacc). cbv zeta.
  destruct (5 <=? _); reflexivity.
Qed.

End ButtonGestures.


Lemma five_or_more_presses_switch_off_witness :
  let ts := [1000; 1020; 1040; 1060; 1080; 1100] in
  (0 <= hz100 DEBOUNCE_TIME_MS /\ 0 <= last_irq_time probed /\
   wired probed 25%nat 24%nat 23%nat /\
   spaced (hz100 DEBOUNCE_TIME_MS) (last_irq_time probed) ts /\
   5 <= Z.of_nat (length ts) < 2 ^ 31) /\
  (run hz100 (map EvIrq ts ++ [EvWork]) probed).2 = [6].
Proof.
  intros ts.
  assert (H1 : 0 <= hz100 DEBOUNCE_TIME_MS) by (vm_compute; congruence).
  assert (H2 : 0 <= last_irq_time probed) by (vm_compute; congruence).
  assert (H3 : spaced (hz100 DEBOUNCE_TIME_MS) (last_irq_time probed) ts)
    by (vm_compute; repeat split; congruence).
  assert (H4 : 5 <= Z.of_nat (length ts) < 2 ^ 31)
    by (vm_compute; split; congruence).
  split; [exact (conj H1 (conj H2 (conj wired_probed (conj H3 H4))))|].
  exact (proj1 (proj2 (proj2 (five_or_more_presses_switch_off hz100 probed
                                _ _ _ ts H1 H2 eq_refl eq_refl
                                wired_probed H3 H4)))).
Defined.

Lemma press_with_bounces_counts_once_witness :
  (0 <= hz100 DEBOUNCE_TIME_MS <= 2 ^ 31 /\
   time_before 1000 (ulong (last_irq_time probed + hz100 DEBOUNCE_TIME_MS))
     = false /\
   bouncing (hz100 DEBOUNCE_TIME_MS) 1000 [1001; 1002; 1004]) /\
  press_count
    (run hz100 (EvIrq 1000 :: map EvIrq [1001; 1002; 1004]) probed).1 = 1.
Proof.
  assert (H1 : 0 <= hz100 DEBOUNCE_TIME_MS <= 2 ^ 31)
    by (vm_compute; split; congruence).
  assert (H3 : bouncing (hz100 DEBOUNCE_TIME_MS) 1000 [1001; 1002; 1004])
    by (repeat constructor; vm_compute; congruence).
  split; [exact (conj H1 (conj eq_refl H3))|].
  exact (proj2 (press_with_bounces_counts_once hz100 probed 1000
                  [1001; 1002; 1004] H1 eq_refl H3)).
Defined.

(** ** Reset, remove and the status file *)

Section ButtonFileOps.

Variable msecs_to_jiffies : Z -> Z.

Local Abbreviation run := (Button.run msecs_to_jiffies).
Local Abbreviation step := (Button.step msecs_to_jiffies).
Local Abbreviation reachable := (Button.reachable msecs_to_jiffies).

(** X6. No write, reset included, stops the timer, unqueues the work or
    touches the pressed flag or the debounce time stamp.  So when a reset
    arrives while the work is queued, the worker still runs: it handles a
    count of 0, writes every LED off again and records state 0. *)
Theorem reset_leaves_work_queued
    (s : state) (d0 d1 d2 : gpio_desc) (len : Z) :
  (forall (len' : Z) (buffer : option ascii) (s0 : state),
     let s' := (button_write len' buffer s0).2 in
     press_timer s' = press_timer s0 /\ button_work s' = button_work s0 /\
     button_pressed s' = button_pressed s0 /\
     last_irq_time s' = last_irq_time s0) /\
  (wired s d0 d1 d2 -> 1 <= len -> button_work s = true ->
   let r := run [EvWrite len (Some "r"%char); EvWork] s in
   r.2 = [0] /\ current_led_state r.1 = 0 /\ press_count r.1 = 0 /\
   button_work r.1 = false /\ press_timer r.1 = press_timer s /\
   gpio_trace r.1 =
     gpio_trace s ++ [(d0, false); (d1, false); (d2, false)]
                  ++ [(d0, false); (d1, false); (d2, false)]).
Proof.
  split.
  - intros len' buf s0. unfold button_write.
    destruct (len' <? 1); [simpl; auto|]. destruct buf as [cmd|]; [|simpl; auto].
    destruct (cmd =? "r")%char.
    + cbn [snd]. rewrite turn_off_all_leds_eq. simpl. auto.
    + destruct (cmd =? "s")%char; simpl; auto.
  - intros [Hgs Hnd] Hlen Hw. cbv zeta.
    assert (Hwr : button_write len (Some "r"%char) s =
                  (len, set_gpio_trace
                          (gpio_trace s ++ [(d0, false); (d1, false); (d2, false)])
                          (set_current_led_state 0 (set_press_count 0 s)))).
    { unfold button_write.
      replace (len <? 1) with false by (symmetry; apply Z.ltb_ge; lia).
      simpl. rewrite turn_off_all_leds_eq. simpl. rewrite Hgs. reflexivity. }
    cbn [Button.run Button.step]. rewrite Hwr. cbn [snd].
    cbn [button_work set_gpio_trace set_current_led_state set_press_count].
    rewrite Hw. rewrite button_work_handler_eq. simpl. rewrite Hgs. simpl.
    rewrite <- app_assoc. repeat split.
Qed.

(** X7. After [button_remove] every LED line has been written off, the
    timer is stopped and no work is queued, whatever was pending, and a
    sequence of timer expiries and worker runs alone then changes nothing
    and dispatches nothing.  Remove clears none of the count, the recorded
    state, the pressed flag and the debounce time stamp, and the interrupt
    handler is not switched off by it: an edge accepted afterwards is
    counted and arms the timer again. *)
Theorem remove_quiesces (s : state) (d0 d1 d2 : gpio_desc) :
  wired s d0 d1 d2 ->
  let s' := button_remove s in
  let lv := line_value (gpio_trace s') in
  (lv d0, lv d1, lv d2) = (Some false, Some false, Some false) /\
  press_timer s' = None /\ button_work s' = false /\
  (press_count s' = press_count s /\
   current_led_state s' = current_led_state s /\
   button_pressed s' = button_pressed s /\
   last_irq_time s' = last_irq_time s) /\
  (forall evs : list event, Forall deferred evs -> run evs s' = (s', [])) /\
  (forall jiffies : Z,
     time_before jiffies
       (ulong (last_irq_time s + msecs_to_jiffies DEBOUNCE_TIME_MS)) = false ->
     int (press_count s + 1) < 5 ->
     let s1 := button_irq_handler msecs_to_jiffies jiffies s' in
     press_count s1 = int (press_count s + 1) /\ is_Some (press_timer s1)).
Proof.
  intros [Hgs Hnd]. apply distinct3 in Hnd as (N01 & N02 & N12).
  rewrite button_remove_eq. cbv zeta.
  set (s' := set_gpio_trace _ _).
  assert (Ht : press_timer s' = None) by reflexivity.
  assert (Hw : button_work s' = false) by reflexivity.
  split; [|split; [exact Ht | split; [exact Hw | split; [|split]]]].
  - subst s'. simpl. rewrite Hgs. simpl. lines. reflexivity.
  - repeat split.
  - intros evs Hq. clearbody s'.
    induction Hq as [|e evs He _ IH]; [reflexivity|].
    destruct e; try destruct He; simpl.
    + rewrite Ht. rewrite IH. reflexivity.
    + rewrite Hw. rewrite IH. reflexivity.
  - intros j Hacc H5.
    rewrite (irq_accepted msecs_to_jiffies j s' Hacc). cbv zeta.
    change (press_count s') with (press_count s).
    replace (5 <=? int (press_count s + 1)) with false
      by (symmetry; apply Z.leb_gt; lia).
    split; [reflexivity | eexists; reflexivity].
Qed.

Lemma status_text_nonempty (s : state) :
  (0 < String.length (status_text s))%nat.
Proof. unfold status_text. simpl. lia. Qed.

(** X8. A read that does not succeed (end of file at a non-zero offset,
    a buffer shorter than the text, a faulting copy) copies nothing, keeps
    the offset and leaves the driver untouched; in particular the pressed
    flag is not consumed. *)
Theorem failed_read_changes_nothing
    (s : state) (len offset : Z) (user_ok : bool) :
  let r := button_read len offset user_ok s in
  read_ret r <= 0 ->
  read_state r = s /\ read_data r = None /\ read_offset r = offset /\
  (read_ret r = 0 \/ read_ret r = - EINVAL \/ read_ret r = - EFAULT).
Proof.
  cbv zeta. unfold button_read, snprintf.
  destruct (negb (offset =? 0));
    [cbn [read_ret read_state read_data read_offset]; auto 6|].
  destruct (len <? Z.of_nat (String.length (status_text s)));
    [cbn [read_ret read_state read_data read_offset]; auto 6|].
  destruct (negb user_ok);
    [cbn [read_ret read_state read_data read_offset]; auto 7|].
  cbn [read_ret]. intros H. pose proof (status_text_nonempty s). lia.
Qed.

Lemma status_text_length_82 (s : state) :
  0 <= current_led_state s <= 4 ->
  (String.length (status_text s) <= 82)%nat.
Proof.
  intros H. unfold status_text. rewrite !string_length_app.
  pose proof (fmt_d_length (press_count s)) as Hd.
  assert (Hl : (String.length (led_status (current_led_state s)) <= 17)%nat).
  { assert (C : current_led_state s = 0 \/ current_led_state s = 1 \/
                current_led_state s = 2 \/ current_led_state s = 3 \/
                current_led_state s = 4) by lia.
    destruct C as [->|[->|[->|[->| ->]]]]; simpl; lia. }
  assert (Hp : (String.length (if button_pressed s then "Pressed"
                               else "Released") <= 8)%nat)
    by (destruct (button_pressed s); simpl; lia).
  simpl String.length. lia.
Qed.

(** What a read that succeeds gives. *)
Lemma read_success (s : state) (len offset : Z) (user_ok : bool) :
  0 <= current_led_state s <= 4 ->
  let r := button_read len offset user_ok s in
  0 < read_ret r ->
  offset = 0 /\ read_data r = Some (status_text s) /\
  read_ret r = Z.of_nat (String.length (status_text s)) /\
  read_offset r = read_ret r /\
  read_state r = set_button_pressed false s.
Proof.
  intros Hrange r Hret. pose proof (status_text_length s Hrange) as Hlen.
  subst r. unfold button_read, snprintf in *.
  destruct (Z.eqb_spec offset 0) as [->|]; [|simpl in Hret; lia].
  cbn [negb] in *.
  destruct (len <? _); [simpl in Hret; unfold EINVAL in Hret; lia|].
  destruct (negb user_ok); [simpl in Hret; unfold EFAULT in Hret; lia|].
  cbn [read_data read_state read_ret read_offset]. rewrite Nat2Z.id.
  rewrite (substring_all (status_text s) (200 - 1)) by exact Hlen.
  rewrite substring_all by lia. repeat split.
Qed.

(** X9. In every reachable state a buffer of 82 bytes is enough: a read
    at offset 0 with at least that much room succeeds unless the copy
    faults, returns the length of the text it copied, at most 82, and
    moves the offset past it, so that reading on at the new offset gives
    end of file and changes nothing. *)
Theorem read_fits_82_bytes (s : state) (len : Z) :
  reachable s -> 82 <= len ->
  let r := button_read len 0 true s in
  let r2 := button_read len (read_offset r) true (read_state r) in
  0 < read_ret r <= 82 /\
  (exists text, read_data r = Some text /\
                read_ret r = Z.of_nat (String.length text)) /\
  read_offset r = read_ret r /\
  read_ret r2 = 0 /\ read_data r2 = None /\ read_state r2 = read_state r.
Proof.
  intros Hr Hlen. pose proof (led_state_range msecs_to_jiffies s Hr) as Hrange.
  pose proof (status_text_length_82 s Hrange) as H82.
  pose proof (status_text_nonempty s) as Hne.
  assert (Hret : read_ret (button_read len 0 true s) =
                 Z.of_nat (String.length (status_text s))).
  { unfold button_read, snprintf. simpl negb. cbv iota.
    replace (len <? Z.of_nat (String.length (status_text s))) with false
      by (symmetry; apply Z.ltb_ge; lia).
    reflexivity. }
  destruct (read_success s len 0 true Hrange ltac:(rewrite Hret; lia))
    as (_ & Hdata & _ & Hoff & Hst).
  cbv zeta. rewrite Hoff, Hret.
  split; [lia|]. split; [exists (status_text s); split; [exact Hdata | reflexivity]|].
  split; [reflexivity|].
  unfold button_read at 1 3 5.
  replace (negb (Z.of_nat (String.length (status_text s)) =? 0)) with true
    by (symmetry; apply negb_true_iff, Z.eqb_neq; lia).
  repeat split.
Qed.

(** X10. The pressed flag is a one-shot: the first successful read after
    an accepted edge reports "Pressed", and a second successful read with
    no edge in between reports "Released". *)
Theorem pressed_flag_is_one_shot
    (s : state) (jiffies len1 len2 off1 off2 : Z) (ok1 ok2 : bool) :
  reachable s ->
  time_before jiffies
    (ulong (last_irq_time s + msecs_to_jiffies DEBOUNCE_TIME_MS)) = false ->
  let s1 := button_irq_handler msecs_to_jiffies jiffies s in
  let r1 := button_read len1 off1 ok1 s1 in
  let r2 := button_read len2 off2 ok2 (read_state r1) in
  0 < read_ret r1 -> 0 < read_ret r2 ->
  (exists rest, read_data r1 = Some ("Button Status: Pressed" ++ rest)%string) /\
  (exists rest, read_data r2 = Some ("Button Status: Released" ++ rest)%string).
Proof.
  intros Hr Hacc s1 r1 r2 H1 H2.
  assert (R1 : reachable s1)
    by (apply (reachable_step msecs_to_jiffies (EvIrq jiffies) s Hr)).
  assert (R2 : reachable (read_state r1))
    by (apply (reachable_step msecs_to_jiffies (EvRead len1 off1 ok1) s1 R1)).
  destruct (read_success s1 len1 off1 ok1
              (led_state_range msecs_to_jiffies _ R1) H1)
    as (_ & D1 & _ & _ & S1).
  destruct (read_success (read_state r1) len2 off2 ok2
              (led_state_range msecs_to_jiffies _ R2) H2)
    as (_ & D2 & _ & _ & _).
  fold r1 in D1, S1. fold r2 in D2.
  assert (P1 : button_pressed s1 = true).
  { subst s1. rewrite (irq_accepted msecs_to_jiffies jiffies s Hacc).
    cbv zeta. destruct (5 <=? _); reflexivity. }
  split.
  - rewrite D1. unfold status_text. rewrite P1. eexists. reflexivity.
  - rewrite D2, S1. unfold status_text. simpl button_pressed.
    eexists. reflexivity.
Qed.

End ButtonFileOps.

Lemma reset_leaves_work_queued_witness :
  let s := (run hz100 [EvIrq 1000; EvTimer] probed).1 in
  (wired s 25%nat 24%nat 23%nat /\ 1 <= 1 /\ button_work s = true) /\
  (run hz100 [EvWrite 1 (Some "r"%char); EvWork] s).2 = [0].
Proof.
  intros s.
  assert (W : wired s 25%nat 24%nat 23%nat)
    by (split; [reflexivity | compute_done]).
  assert (L : 1 <= 1) by lia.
  split; [exact (conj W (conj L eq_refl))|].
  exact (proj1 (proj2 (reset_leaves_work_queued hz100 s _ _ _ 1)
                      W L eq_refl)).
Defined.

Lemma remove_quiesces_witness :
  let s := (run hz100 [EvIrq 1000] probed).1 in
  wired s 25%nat 24%nat 23%nat /\
  press_timer (button_remove s) = None.
Proof.
  intros s.
  assert (W : wired s 25%nat 24%nat 23%nat)
    by (split; [reflexivity | compute_done]).
  split; [exact W|].
  exact (proj1 (proj2 (remove_quiesces hz100 s _ _ _ W))).
Defined.

Lemma failed_read_changes_nothing_witness :
  read_ret (button_read 10 0 true probed) <= 0 /\
  read_state (button_read 10 0 true probed) = probed.
Proof.
  assert (H : read_ret (button_read 10 0 true probed) <= 0)
    by (vm_compute; congruence).
  split; [exact H|].
  exact (proj1 (failed_read_changes_nothing probed 10 0 true H)).
Defined.

Lemma read_fits_82_bytes_witness :
  (reachable hz100 probed /\ 82 <= 82) /\
  0 < read_ret (button_read 82 0 true probed) <= 82.
Proof.
  assert (L : 82 <= 82) by lia.
  split; [exact (conj reachable_probed L)|].
  exact (proj1 (read_fits_82_bytes hz100 probed 82 reachable_probed L)).
Defined.

Lemma pressed_flag_is_one_shot_witness :
  let s1 := button_irq_handler hz100 1000 probed in
  let r1 := button_read 200 0 true s1 in
  let r2 := button_read 200 0 true (read_state r1) in
  (reachable hz100 probed /\
   time_before 1000 (ulong (last_irq_time probed + hz100 DEBOUNCE_TIME_MS))
     = false /\
   0 < read_ret r1 /\ 0 < read_ret r2) /\
  exists rest, read_data r1 = Some ("Button Status: Pressed" ++ rest)%string.
Proof.
  intros s1 r1 r2.
  assert (H1 : 0 < read_ret r1) by (vm_compute; reflexivity).
  assert (H2 : 0 < read_ret r2) by (vm_compute; reflexivity).
  split; [exact (conj reachable_probed (conj eq_refl (conj H1 H2)))|].
  exact (proj1 (pressed_flag_is_one_shot hz100 probed 1000 200 200 0 0
                  true true reachable_probed eq_refl H1 H2)).
Defined.

(** * Properties of the LED driver *)

Lemma opened_cases (dev : LedFile.my_led) :
  LedFile.opened dev ->
  dev = LedFile.MyLed "green_led" 0 \/ dev = LedFile.MyLed "white_led" 1 \/
  dev = LedFile.MyLed "yellow_led" 2.
Proof.
  intros (minor & Hm & Ho). unfold LedFile.led_open, Led.NUM_DEVICES in Ho.
  destruct (Z.leb_spec 3 minor); [discriminate|].
  assert (C : minor = 0 \/ minor = 1 \/ minor = 2) by lia.
  destruct C as [->|[->| ->]]; simpl in Ho; injection Ho as <-; auto.
Qed.

(** X11. [led_open] refuses every minor number from 3 up with -ENODEV
    and hands out, for minor 0, 1 and 2, the table entry whose index is
    that minor; so the index of an open file is always inside the
    driver's three-element arrays. *)
Theorem led_open_bounds (minor : Z) :
  0 <= minor ->
  (3 <= minor -> LedFile.led_open minor = (- LedFile.ENODEV, None)) /\
  (minor < 3 ->
   exists dev, LedFile.led_open minor = (0, Some dev) /\
               LedFile.index dev = Z.to_nat minor /\
               (LedFile.index dev < 3)%nat /\
               LedFile.leds !! LedFile.index dev = Some dev).
Proof.
  intros H0. unfold LedFile.led_open, Led.NUM_DEVICES. split; intros H.
  - replace (3 <=? minor) with true by (symmetry; apply Z.leb_le; lia).
    reflexivity.
  - replace (3 <=? minor) with false by (symmetry; apply Z.leb_gt; lia).
    assert (C : minor = 0 \/ minor = 1 \/ minor = 2) by lia.
    destruct C as [->|[->| ->]]; simpl; eexists; repeat split; simpl; lia.
Qed.

Lemma led_open_bounds_witness :
  0 <= 7 /\ LedFile.led_open 7 = (- LedFile.ENODEV, None).
Proof.
  assert (H : 0 <= 7) by lia.
  split; [exact H|].
  exact (proj1 (led_open_bounds 7 H) ltac:(lia)).
Defined.

Lemma led_probe_success (acquire : nat -> gpio_desc + Z) (s : Led.state) :
  LedFile.led_probe acquire = inr s ->
  exists d0 d1 d2,
    acquire 0%nat = inl d0 /\ acquire 1%nat = inl d1 /\
    acquire 2%nat = inl d2 /\
    s = Led.State [Desc d0; Desc d1; Desc d2] [false; false; false]
                  [(d0, false); (d1, false); (d2, false)].
Proof.
  unfold LedFile.led_probe. simpl.
  destruct (acquire 0%nat) as [d0|e0]; [|discriminate].
  destruct (acquire 1%nat) as [d1|e1]; [|discriminate].
  destruct (acquire 2%nat) as [d2|e2]; [|discriminate].
  intros [= <-]. exists d0, d1, d2. repeat split.
Qed.

(** X12. [led_probe] succeeds exactly when all three lines can be
    acquired; it then holds the three descriptors with every LED recorded
    off and written low, in index order.  When an acquisition fails it
    returns the error of the first index that failed, without trying the
    later ones. *)
Theorem led_probe_outcome (acquire : nat -> gpio_desc + Z) :
  (forall d0 d1 d2,
     acquire 0%nat = inl d0 -> acquire 1%nat = inl d1 ->
     acquire 2%nat = inl d2 ->
     LedFile.led_probe acquire =
     inr (Led.State [Desc d0; Desc d1; Desc d2] [false; false; false]
                    [(d0, false); (d1, false); (d2, false)])) /\
  (forall (i : nat) (err : Z),
     (i < 3)%nat -> acquire i = inr err ->
     (forall j, (j < i)%nat -> exists d, acquire j = inl d) ->
     LedFile.led_probe acquire = inl err) /\
  (forall s, LedFile.led_probe acquire = inr s ->
     exists d0 d1 d2,
       acquire 0%nat = inl d0 /\ acquire 1%nat = inl d1 /\
       acquire 2%nat = inl d2).
Proof.
  split; [|split].
  - intros d0 d1 d2 H0 H1 H2. unfold LedFile.led_probe. simpl.
    rewrite H0, H1, H2. reflexivity.
  - intros i err Hi He Hprev. unfold LedFile.led_probe. simpl.
    destruct i as [|[|[|i]]]; [| | |exfalso; lia].
    + rewrite He. reflexivity.
    + destruct (Hprev 0%nat ltac:(lia)) as [d0 H0]. rewrite H0, He.
      reflexivity.
    + destruct (Hprev 0%nat ltac:(lia)) as [d0 H0].
      destruct (Hprev 1%nat ltac:(lia)) as [d1 H1]. rewrite H0, H1, He.
      reflexivity.
  - intros s Hs. destruct (led_probe_success acquire s Hs)
      as (d0 & d1 & d2 & H0 & H1 & H2 & _).
    exists d0, d1, d2. auto.
Qed.

Lemma led_probe_outcome_witness :
  (overlay_lines 0%nat = inl 25%nat /\ overlay_lines 1%nat = inl 24%nat /\
   overlay_lines 2%nat = inl 23%nat) /\
  LedFile.led_probe overlay_lines = inr board_off.
Proof.
  split; [repeat split|].
  exact (proj1 (led_probe_outcome overlay_lines) _ _ _ eq_refl eq_refl eq_refl).
Defined.

Ltac led_cmd_cases :=
  repeat match goal with
         | |- context [if (?c =? ?k)%char then _ else _] =>
             destruct (c =? k)%char
         | |- context [if ?c =? ?k then _ else _] =>
             destruct (c =? k)
         | |- context [if ?b then _ else _] => destruct b
         end.

Ltac led_finish M0 M1 M2 :=
  unfold led_synced; simpl; repeat split; lines;
  rewrite ?M0, ?M1, ?M2; reflexivity.

Lemma led_step_synced (e : LedFile.event) (s : Led.state)
    (d0 d1 d2 : gpio_desc) :
  NoDup [d0; d1; d2] -> LedFile.opened (LedFile.event_dev e) ->
  led_synced s d0 d1 d2 -> led_synced (LedFile.step e s) d0 d1 d2.
Proof.
  intros Hnd Hop (Hg & Hl & Hm).
  apply distinct3 in Hnd as (N01 & N02 & N12).
  destruct s as [gp st tr]. simpl in Hg, Hl, Hm. subst gp.
  destruct st as [|b0 [|b1 [|b2 [|]]]]; try discriminate Hl.
  simpl in Hm. injection Hm as M0 M1 M2.
  destruct (opened_cases _ Hop) as [E|[E|E]];
    destruct e as [dev len buf|dev cmd ok|dev len off ok];
    simpl in E; subst dev;
    unfold LedFile.step, LedFile.led_write, Led.led_write, LedFile.led_ioctl;
    try destruct buf as [c|];
    cbn [LedFile.index snd]; led_cmd_cases; cbn [snd];
    led_finish M0 M1 M2.
Qed.

Lemma led_reachable_synced
    (acquire : nat -> gpio_desc + Z) (s : Led.state) (d0 d1 d2 : gpio_desc) :
  acquire 0%nat = inl d0 -> acquire 1%nat = inl d1 ->
  acquire 2%nat = inl d2 -> NoDup [d0; d1; d2] ->
  LedFile.reachable acquire s ->
  led_synced s d0 d1 d2.
Proof.
  intros A0 A1 A2 Hnd Hr. induction Hr as [s Hp | e s _ IH Hop].
  - destruct (led_probe_success acquire s Hp)
      as (a & b & c & H0 & H1 & H2 & ->).
    assert (a = d0 /\ b = d1 /\ c = d2) as (-> & -> & ->)
      by (repeat split; congruence).
    apply distinct3 in Hnd as (N01 & N02 & N12).
    unfold led_synced. simpl. repeat split. lines. reflexivity.
  - apply led_step_synced; assumption.
Qed.

(** X13. From a successful probe on, and through every write and ioctl
    on the open LED files, the recorded [led_state] of each LED is the
    level the driver last wrote to that LED's line; the descriptors never
    change. *)
Theorem led_state_matches_lines
    (acquire : nat -> gpio_desc + Z) (s : Led.state) (d0 d1 d2 : gpio_desc) :
  acquire 0%nat = inl d0 -> acquire 1%nat = inl d1 ->
  acquire 2%nat = inl d2 -> NoDup [d0; d1; d2] ->
  LedFile.reachable acquire s ->
  Led.led_gpio s = [Desc d0; Desc d1; Desc d2] /\
  length (Led.led_state s) = 3%nat /\
  map (line_value (Led.gpio_trace s)) [d0; d1; d2] =
  map Some (Led.led_state s).
Proof. apply led_reachable_synced. Qed.

Lemma led_state_matches_lines_witness :
  let dev := LedFile.MyLed "white_led" 1 in
  let s := LedFile.step (LedFile.EvWrite dev 1 (Some "1"%char)) board_off in
  (NoDup [25%nat; 24%nat; 23%nat] /\ LedFile.reachable overlay_lines s) /\
  map (line_value (Led.gpio_trace s)) [25%nat; 24%nat; 23%nat] =
  map Some (Led.led_state s).
Proof.
  intros dev s.
  assert (N : NoDup [25%nat; 24%nat; 23%nat]) by compute_done.
  assert (O : LedFile.opened dev) by (exists 1; split; [lia | reflexivity]).
  assert (R : LedFile.reachable overlay_lines s)
    by (apply (LedFile.reachable_step overlay_lines
                 (LedFile.EvWrite dev 1 (Some "1"%char)) board_off);
        [apply LedFile.reachable_probe; reflexivity | exact O]).
  split; [exact (conj N R)|].
  exact (proj2 (proj2 (led_state_matches_lines overlay_lines s _ _ _
                         eq_refl eq_refl eq_refl N R))).
Defined.

(** X14. The three switching ioctls do to the driver exactly what the
    corresponding write commands do: GPIO_IOC_LED_ON is the write of '1',
    GPIO_IOC_LED_OFF that of '0', GPIO_IOC_LED_TOGGLE that of 't'; the
    ioctl returns 0 where the write returns its length. *)
Theorem ioctl_matches_write
    (dev : LedFile.my_led) (len : Z) (user_ok : bool) (s : Led.state) :
  1 <= len ->
  let io := fun cmd => LedFile.led_ioctl dev cmd user_ok s in
  let wr := fun c => LedFile.led_write dev len (Some c) s in
  io LedFile.GPIO_IOC_LED_ON = (0, None, (wr "1"%char).2) /\
  io LedFile.GPIO_IOC_LED_OFF = (0, None, (wr "0"%char).2) /\
  io LedFile.GPIO_IOC_LED_TOGGLE = (0, None, (wr "t"%char).2) /\
  (wr "1"%char).1 = len /\ (wr "0"%char).1 = len /\ (wr "t"%char).1 = len.
Proof.
  intros Hlen. cbv zeta.
  unfold LedFile.led_ioctl, LedFile.led_write, Led.led_write.
  replace (len <? 1) with false by (symmetry; apply Z.ltb_ge; lia).
  repeat split.
Qed.

Lemma ioctl_matches_write_witness :
  1 <= 1 /\
  LedFile.led_ioctl (LedFile.MyLed "green_led" 0) LedFile.GPIO_IOC_LED_ON
                    true board_off =
  (0, None,
   (LedFile.led_write (LedFile.MyLed "green_led" 0) 1 (Some "1"%char)
                      board_off).2).
Proof.
  assert (L : 1 <= 1) by lia.
  split; [exact L|].
  exact (proj1 (ioctl_matches_write (LedFile.MyLed "green_led" 0) 1 true
                  board_off L)).
Defined.

(** X15. GPIO_IOC_GET_STATUS stores 1 or 0 as the LED is recorded on or
    off, a faulting copy gives -EFAULT, and every command number other
    than the four defined ones gives -ENOTTY; none of these changes the
    driver state. *)
Theorem ioctl_query_changes_nothing
    (dev : LedFile.my_led) (cmd : Z) (s : Led.state) :
  LedFile.led_ioctl dev LedFile.GPIO_IOC_GET_STATUS true s =
    (0,
     Some (if default false (Led.led_state s !! LedFile.index dev)
           then 1 else 0),
     s) /\
  LedFile.led_ioctl dev LedFile.GPIO_IOC_GET_STATUS false s =
    (- EFAULT, None, s) /\
  (cmd <> LedFile.GPIO_IOC_LED_ON -> cmd <> LedFile.GPIO_IOC_LED_OFF ->
   cmd <> LedFile.GPIO_IOC_LED_TOGGLE ->
   cmd <> LedFile.GPIO_IOC_GET_STATUS ->
   forall user_ok : bool,
     LedFile.led_ioctl dev cmd user_ok s = (- LedFile.ENOTTY, None, s)).
Proof.
  split; [reflexivity|]. split; [reflexivity|].
  intros H1 H2 H3 H4 ok. unfold LedFile.led_ioctl.
  apply Z.eqb_neq in H1, H2, H3, H4. rewrite H1, H2, H3, H4. reflexivity.
Qed.

Lemma ioctl_query_changes_nothing_witness :
  (0 <> LedFile.GPIO_IOC_LED_ON /\ 0 <> LedFile.GPIO_IOC_LED_OFF /\
   0 <> LedFile.GPIO_IOC_LED_TOGGLE /\ 0 <> LedFile.GPIO_IOC_GET_STATUS) /\
  LedFile.led_ioctl (LedFile.MyLed "green_led" 0) 0 true board_off =
  (- LedFile.ENOTTY, None, board_off).
Proof.
  assert (H1 : 0 <> LedFile.GPIO_IOC_LED_ON) by (vm_compute; congruence).
  assert (H2 : 0 <> LedFile.GPIO_IOC_LED_OFF) by (vm_compute; congruence).
  assert (H3 : 0 <> LedFile.GPIO_IOC_LED_TOGGLE) by (vm_compute; congruence).
  assert (H4 : 0 <> LedFile.GPIO_IOC_GET_STATUS) by (vm_compute; congruence).
  split; [exact (conj H1 (conj H2 (conj H3 H4)))|].
  exact (proj2 (proj2 (ioctl_query_changes_nothing
                         (LedFile.MyLed "green_led" 0) 0 board_off))
               H1 H2 H3 H4 true).
Defined.

(** X16. What is written can be read back: after '1' (or '0') is written
    to an open LED file whose driver holds three LED records, a read of 18
    bytes or more at offset 0 returns "<name> is ON" (or "OFF") and a
    newline for that LED's name, and GPIO_IOC_GET_STATUS stores 1 (or 0);
    neither query changes the driver. *)
Theorem led_write_read_round_trip
    (dev : LedFile.my_led) (len rlen : Z) (on : bool) (s : Led.state) :
  LedFile.opened dev -> length (Led.led_state s) = 3%nat ->
  1 <= len -> 18 <= rlen ->
  let c := if on then "1"%char else "0"%char in
  let s1 := (LedFile.led_write dev len (Some c) s).2 in
  let text := (LedFile.name dev ++ " is " ++ (if on then "ON" else "OFF")
                 ++ String (ascii_of_nat 10) EmptyString)%string in
  LedFile.led_read dev rlen 0 true s1 =
    (Z.of_nat (String.length text), Some text,
     Z.of_nat (String.length text)) /\
  LedFile.led_ioctl dev LedFile.GPIO_IOC_GET_STATUS true s1 =
    (0, Some (if on then 1 else 0), s1).
Proof.
  intros Hop Hl Hlen Hrlen.
  destruct s as [gp st tr]. simpl in Hl.
  destruct st as [|b0 [|b1 [|b2 [|]]]]; try discriminate Hl.
  cbv zeta. unfold LedFile.led_write, Led.led_write.
  replace (len <? 1) with false by (symmetry; apply Z.ltb_ge; lia).
  destruct (opened_cases _ Hop) as [->|[->| ->]]; destruct on;
    cbn [LedFile.index LedFile.name snd Ascii.eqb Bool.eqb];
    unfold LedFile.led_read, LedFile.status_text, snprintf;
    cbn [Led.led_gpio LedFile.index];
    match goal with
    | |- context [default NULL (gp !! ?i)] =>
        destruct (default NULL (gp !! i))
    end;
    simpl;
    (replace (rlen <? _) with false by (symmetry; apply Z.ltb_ge; lia));
    split; reflexivity.
Qed.

Lemma led_write_read_round_trip_witness :
  let dev := LedFile.MyLed "yellow_led" 2 in
  (LedFile.opened dev /\ length (Led.led_state board_off) = 3%nat /\
   1 <= 1 /\ 18 <= 100) /\
  LedFile.led_ioctl dev LedFile.GPIO_IOC_GET_STATUS true
    (LedFile.led_write dev 1 (Some "1"%char) board_off).2 =
  (0, Some 1, (LedFile.led_write dev 1 (Some "1"%char) board_off).2).
Proof.
  intros dev.
  assert (O : LedFile.opened dev) by (exists 2; split; [lia | reflexivity]).
  assert (L1 : 1 <= 1) by lia.
  assert (L2 : 18 <= 100) by lia.
  split; [exact (conj O (conj eq_refl (conj L1 L2)))|].
  exact (proj2 (led_write_read_round_trip dev 1 100 true board_off
                  O eq_refl L1 L2)).
Defined.

(** X17. Toggling an LED twice, by write or by ioctl, puts everything
    back: the recorded states, the descriptors and the level of every
    line are as before the first toggle, and in between the LED's record
    is the opposite of what it was. *)
Theorem toggle_twice_restores
    (dev : LedFile.my_led) (len : Z) (s : Led.state) (d0 d1 d2 : gpio_desc) :
  LedFile.opened dev -> NoDup [d0; d1; d2] -> led_synced s d0 d1 d2 ->
  1 <= len ->
  let s1 := (LedFile.led_write dev len (Some "t"%char) s).2 in
  let s2 := (LedFile.led_write dev len (Some "t"%char) s1).2 in
  Led.led_state s1 !! LedFile.index dev =
    negb <$> (Led.led_state s !! LedFile.index dev) /\
  Led.led_state s2 = Led.led_state s /\
  Led.led_gpio s2 = Led.led_gpio s /\
  (forall d, line_value (Led.gpio_trace s2) d =
             line_value (Led.gpio_trace s) d) /\
  s2 = (LedFile.led_ioctl dev LedFile.GPIO_IOC_LED_TOGGLE true
          (LedFile.led_ioctl dev LedFile.GPIO_IOC_LED_TOGGLE true s).2).2.
Proof.
  intros Hop Hnd (Hg & Hl & Hm) Hlen.
  apply distinct3 in Hnd as (N01 & N02 & N12).
  destruct s as [gp st tr]. simpl in Hg, Hl, Hm. subst gp.
  destruct st as [|b0 [|b1 [|b2 [|]]]]; try discriminate Hl.
  simpl in Hm. injection Hm as M0 M1 M2.
  cbv zeta. unfold LedFile.led_write, Led.led_write, LedFile.led_ioctl.
  replace (len <? 1) with false by (symmetry; apply Z.ltb_ge; lia).
  destruct (opened_cases _ Hop) as [->|[->| ->]]; simpl;
    rewrite ?negb_involutive; repeat split;
    intros d; rewrite !line_value_app; simpl;
    repeat case_decide; subst; rewrite ?M0, ?M1, ?M2; reflexivity.
Qed.

Lemma toggle_twice_restores_witness :
  let dev := LedFile.MyLed "green_led" 0 in
  (LedFile.opened dev /\ NoDup [25%nat; 24%nat; 23%nat] /\
   led_synced board_off 25%nat 24%nat 23%nat /\ 1 <= 1) /\
  Led.led_state
    (LedFile.led_write dev 1 (Some "t"%char)
       (LedFile.led_write dev 1 (Some "t"%char) board_off).2).2 =
  Led.led_state board_off.
Proof.
  intros dev.
  assert (O : LedFile.opened dev) by (exists 0; split; [lia | reflexivity]).
  assert (N : NoDup [25%nat; 24%nat; 23%nat]) by compute_done.
  assert (S : led_synced board_off 25%nat 24%nat 23%nat)
    by (repeat split).
  assert (L : 1 <= 1) by lia.
  split; [exact (conj O (conj N (conj S L)))|].
  exact (proj1 (proj2 (toggle_twice_restores dev 1 board_off _ _ _ O N S L))).
Defined.

(** X18. [led_remove] leaves every LED recorded off and every LED line
    written low, whatever was on before. *)
Theorem led_remove_switches_off (s : Led.state) (d0 d1 d2 : gpio_desc) :
  Led.led_gpio s = [Desc d0; Desc d1; Desc d2] -> NoDup [d0; d1; d2] ->
  length (Led.led_state s) = 3%nat ->
  let s' := LedFile.led_remove s in
  Led.led_state s' = [false; false; false] /\
  map (line_value (Led.gpio_trace s')) [d0; d1; d2] =
  [Some false; Some false; Some false] /\
  Led.gpio_trace s' =
  Led.gpio_trace s ++ [(d0, false); (d1, false); (d2, false)].
Proof.
  intros Hg Hnd Hl. apply distinct3 in Hnd as (N01 & N02 & N12).
  destruct s as [gp st tr]. simpl in Hg, Hl. subst gp.
  destruct st as [|b0 [|b1 [|b2 [|]]]]; try discriminate Hl.
  cbv zeta. unfold LedFile.led_remove. simpl.
  rewrite <- !app_assoc. simpl. repeat split. lines. reflexivity.
Qed.

Lemma led_remove_switches_off_witness :
  let s := (LedFile.led_write (LedFile.MyLed "white_led" 1) 1
              (Some "1"%char) board_off).2 in
  (Led.led_gpio s = [Desc 25%nat; Desc 24%nat; Desc 23%nat] /\
   NoDup [25%nat; 24%nat; 23%nat] /\ length (Led.led_state s) = 3%nat) /\
  Led.led_state (LedFile.led_remove s) = [false; false; false].
Proof.
  intros s.
  assert (N : NoDup [25%nat; 24%nat; 23%nat]) by compute_done.
  split; [exact (conj eq_refl (conj N eq_refl))|].
  exact (proj1 (led_remove_switches_off s _ _ _ eq_refl N eq_refl)).
Defined.

(** When the LED driver's probe succeeds, the globals it leaves are the
    state it is said to reach. *)
Lemma led_probe_globals_success
    (acquire : nat -> gpio_desc + Z) (i n : nat) (s s' : Led.state) :
  LedFile.led_probe_from acquire i n s = inr s' ->
  LedFile.led_probe_globals acquire i n s = s'.
Proof.
  revert i s. induction n as [|n IH]; intros i s; simpl.
  - intros [= ->]. reflexivity.
  - destruct (acquire i) as [d|err]; [apply IH | discriminate].
Qed.

(** X19. What [button_probe] takes from the LED driver and what it
    assigns.  Whatever it returns, it leaves the count, the pressed flag,
    the recorded LED state and the debounce time stamp as they were, so
    what an earlier binding left there survives a remove and a new probe.
    With its own GPIO acquired it returns -ENODEV, without writing a line,
    as soon as one of the LED driver's three pointers is NULL.  When it
    returns 0 none of the three is NULL, the slots hold them, the timer is
    stopped, no work is queued and one pass has switched off every LED
    whose slot holds a descriptor.  It returns 0 whenever every kernel
    call succeeds and none of the three pointers is NULL: on every state
    the LED driver reaches after its own successful probe, where the slots
    then hold the three lines; but also after a probe of the LED driver
    that failed on its third line, where the third slot then holds the
    error pointer and only two lines are written. *)
Theorem button_probe_assigns
    (env : probe_env) (leds : Led.state) (s : state) :
  length (led_gpios s) = 3%nat ->
  let ret := (button_probe env leds s).1 in
  let s' := (button_probe env leds s).2 in
  let p0 := Led.led_get_gpio 0 leds in
  let p1 := Led.led_get_gpio 1 leds in
  let p2 := Led.led_get_gpio 2 leds in
  (press_count s' = press_count s /\ button_pressed s' = button_pressed s /\
   current_led_state s' = current_led_state s /\
   last_irq_time s' = last_irq_time s) /\
  (button_gpio_err env = None ->
   (exists i : Z, 0 <= i < 3 /\ Led.led_get_gpio i leds = NULL) ->
   ret = - ENODEV /\ gpio_trace s' = gpio_trace s) /\
  (ret = 0 ->
   p0 <> NULL /\ p1 <> NULL /\ p2 <> NULL /\
   led_gpios s' = [p0; p1; p2] /\
   press_timer s' = None /\ button_work s' = false /\
   gpio_trace s' = gpio_trace s ++ loop_writes false [p0; p1; p2]) /\
  (env_ok env -> p0 <> NULL -> p1 <> NULL -> p2 <> NULL -> ret = 0) /\
  (forall (acquire : nat -> gpio_desc + Z) (d0 d1 d2 : gpio_desc),
     acquire 0%nat = inl d0 -> acquire 1%nat = inl d1 ->
     acquire 2%nat = inl d2 -> NoDup [d0; d1; d2] ->
     LedFile.reachable acquire leds -> env_ok env ->
     ret = 0 /\ wired s' d0 d1 d2 /\
     gpio_trace s' =
       gpio_trace s ++ [(d0, false); (d1, false); (d2, false)]) /\
  (forall (acquire : nat -> gpio_desc + Z) (d0 d1 : gpio_desc) (err : Z),
     acquire 0%nat = inl d0 -> acquire 1%nat = inl d1 ->
     acquire 2%nat = inr err ->
     leds = LedFile.led_probe_globals acquire 0 3 LedFile.unprobed ->
     env_ok env ->
     LedFile.led_probe acquire = inl err /\ ret = 0 /\
     led_gpios s' = [Desc d0; Desc d1; ERR_PTR err] /\
     gpio_trace s' = gpio_trace s ++ [(d0, false); (d1, false)]).
Proof.
  intros Hl. cbv zeta. split; [|split; [|split; [|split; [|split]]]].
  - destruct (button_probe_frame env leds s) as (F1 & F2 & F3 & F4 & _).
    auto.
  - intros He Hn. exact (button_probe_null env leds s Hl He Hn).
  - intros Hret.
    destruct (button_probe_success env leds s Hl Hret) as (N0 & N1 & N2 & E).
    rewrite E. repeat split; assumption.
  - intros He N0 N1 N2. exact (button_probe_ok env leds s Hl He N0 N1 N2).
  - intros acquire d0 d1 d2 A0 A1 A2 Hnd Hr He.
    destruct (led_reachable_synced acquire leds d0 d1 d2 A0 A1 A2 Hnd Hr)
      as (Hg & _ & _).
    assert (G0 : Led.led_get_gpio 0 leds = Desc d0)
      by (unfold Led.led_get_gpio; rewrite Hg; reflexivity).
    assert (G1 : Led.led_get_gpio 1 leds = Desc d1)
      by (unfold Led.led_get_gpio; rewrite Hg; reflexivity).
    assert (G2 : Led.led_get_gpio 2 leds = Desc d2)
      by (unfold Led.led_get_gpio; rewrite Hg; reflexivity).
    assert (Hret : (button_probe env leds s).1 = 0)
      by (apply button_probe_ok; try assumption;
          rewrite ?G0, ?G1, ?G2; discriminate).
    destruct (button_probe_success env leds s Hl Hret) as (_ & _ & _ & E).
    rewrite E, G0, G1, G2.
    split; [exact Hret|]. split; [|reflexivity].
    split; [reflexivity | exact Hnd].
  - intros acquire d0 d1 err A0 A1 A2 -> He.
    assert (P : LedFile.led_probe acquire = inl err)
      by (unfold LedFile.led_probe; simpl; rewrite A0, A1, A2; reflexivity).
    assert (G :
      LedFile.led_probe_globals acquire 0 3 LedFile.unprobed =
      Led.State [Desc d0; Desc d1; ERR_PTR err] [false; false; false]
                [(d0, false); (d1, false)])
      by (simpl; rewrite A0, A1, A2; reflexivity).
    rewrite G.
    set (leds := Led.State _ _ _).
    assert (Hret : (button_probe env leds s).1 = 0)
      by (apply button_probe_ok; try assumption; discriminate).
    destruct (button_probe_success env leds s Hl Hret) as (_ & _ & _ & E).
    rewrite E.
    split; [exact P|]. split; [exact Hret|]. split; reflexivity.
Qed.

Lemma button_probe_assigns_witness :
  let s := (run hz100 [EvIrq 1000; EvIrq 1020; EvIrq 1040; EvTimer; EvWork]
                probed).1 in
  length (led_gpios (button_remove s)) = 3%nat /\
  current_led_state (button_probe probe_ok board (button_remove s)).2 = 3.
Proof.
  intros s.
  assert (L : length (led_gpios (button_remove s)) = 3%nat) by reflexivity.
  split; [exact L|].
  exact (proj1 (proj2 (proj2 (proj1
           (button_probe_assigns probe_ok board (button_remove s) L))))).
Defined.

(** After the LED driver failed to get its third line, the button driver
    binds all the same: its probe returns 0 with the error pointer in the
    third slot, and a gesture of three presses, which selects that LED,
    then switches the two other lines off and lights none. *)
Example probe_takes_error_pointer :
  let acquire := fun i : nat =>
    match i with
    | 0%nat => inl 25%nat | 1%nat => inl 24%nat | _ => inr (-2)
    end in
  let leds := LedFile.led_probe_globals acquire 0 3 LedFile.unprobed in
  let r := button_probe probe_ok leds loaded in
  let s := (run hz100 (cycle [1000; 1020; 1040]) r.2).1 in
  LedFile.led_probe acquire = inl (-2) /\
  r.1 = 0 /\ led_gpios r.2 = [Desc 25%nat; Desc 24%nat; ERR_PTR (-2)] /\
  current_led_state s = 3 /\
  map (line_value (gpio_trace s)) [25%nat; 24%nat] =
  [Some false; Some false].
Proof. cbv zeta. repeat split. Qed.

(** * Properties of the client's LED commands *)

(** X20. With the three LED files open, "on" (or "off") for all LEDs
    succeeds, leaves every LED recorded on (off) in the driver, and the
    status the client then queries for each LED is 1 (0); "toggle" for all
    succeeds and inverts every record. *)
Theorem all_leds_control_round_trip
    (led_fds : list Z) (s : Led.state) (on : bool) :
  length led_fds = 3%nat -> Forall (fun fd => 0 <= fd) led_fds ->
  length (Led.led_state s) = 3%nat ->
  let r := App.all_leds_control (if on then "on" else "off") led_fds s in
  let t := App.all_leds_control "toggle" led_fds s in
  r.1 = 0 /\ Led.led_state r.2 = [on; on; on] /\
  (forall i : nat, (i < 3)%nat ->
     App.get_led_status (Z.of_nat i) led_fds r.2 = if on then 1 else 0) /\
  t.1 = 0 /\ Led.led_state t.2 = map negb (Led.led_state s).
Proof.
  intros Hlen Hfds Hl.
  destruct led_fds as [|f0 [|f1 [|f2 [|]]]]; try discriminate Hlen.
  inversion Hfds as [|? ? F0 Hf1]; subst.
  inversion Hf1 as [|? ? F1 Hf2]; subst.
  inversion Hf2 as [|? ? F2 _]; subst.
  apply Z.ltb_ge in F0, F1, F2.
  destruct s as [gp st tr]. simpl in Hl.
  destruct st as [|b0 [|b1 [|b2 [|]]]]; try discriminate Hl.
  cbv zeta.
  assert (Hst : forall i : nat, (i < 3)%nat -> i = 0%nat \/ i = 1%nat \/ i = 2%nat)
    by (intros; lia).
  unfold App.all_leds_control, App.get_led_status, App.led_control,
    App.fd_closed, App.ioctl.
  destruct (gp !! 0%nat) as [[|e0|g0]|] eqn:G0;
    destruct (gp !! 1%nat) as [[|e1|g1]|] eqn:G1;
    destruct (gp !! 2%nat) as [[|e2|g2]|] eqn:G2;
    destruct on;
    repeat (progress (simpl; rewrite ?F0, ?F1, ?F2, ?G0, ?G1, ?G2));
    (split; [reflexivity|]); (split; [reflexivity|]);
    (split; [|split; reflexivity]);
    intros i Hi; destruct (Hst i Hi) as [->|[->| ->]];
    repeat (progress (simpl; rewrite ?F0, ?F1, ?F2, ?G0, ?G1, ?G2));
    reflexivity.
Qed.

Lemma all_leds_control_round_trip_witness :
  (length [3; 4; 5] = 3%nat /\ Forall (fun fd => 0 <= fd) [3; 4; 5] /\
   length (Led.led_state board_off) = 3%nat) /\
  Led.led_state (App.all_leds_control "on" [3; 4; 5] board_off).2 =
  [true; true; true].
Proof.
  assert (F : Forall (fun fd => 0 <= fd) [3; 4; 5])
    by (repeat constructor; vm_compute; congruence).
  split; [exact (conj eq_refl (conj F eq_refl))|].
  exact (proj1 (proj2 (all_leds_control_round_trip [3; 4; 5] board_off true
                         eq_refl F eq_refl))).
Defined.

(** X21. The client never reaches the driver with a bad request: an
    index outside 0..2, an LED file that is not open, or a command other
    than "on", "off" and "toggle" makes [led_control] return -1 with the
    driver untouched, and a bad index or closed file makes
    [get_led_status] return -1. *)
Theorem led_control_rejects
    (led_index : Z) (command : string) (led_fds : list Z) (s : Led.state) :
  (led_index < 0 \/ 3 <= led_index \/
   default (-1) (led_fds !! Z.to_nat led_index) < 0 ->
   App.led_control led_index command led_fds s = (-1, s) /\
   App.get_led_status led_index led_fds s = -1) /\
  (command <> "on"%string -> command <> "off"%string ->
   command <> "toggle"%string ->
   App.led_control led_index command led_fds s = (-1, s)).
Proof.
  split.
  - intros H. unfold App.led_control, App.get_led_status, App.fd_closed,
      App.NUM_LEDS.
    assert (G : (led_index <? 0) || (3 <=? led_index)
                || (default (-1) (led_fds !! Z.to_nat led_index) <? 0) = true).
    { destruct H as [H|[H|H]].
      - apply Z.ltb_lt in H. rewrite H. reflexivity.
      - apply Z.leb_le in H. rewrite H. apply orb_true_iff. left.
        apply orb_true_r.
      - apply Z.ltb_lt in H. rewrite H. apply orb_true_r. }
    rewrite G. split; reflexivity.
  - intros H1 H2 H3. unfold App.led_control.
    apply String.eqb_neq in H1, H2, H3. rewrite H1, H2, H3.
    destruct (_ || _); reflexivity.
Qed.

Lemma led_control_rejects_witness :
  (5 < 0 \/ 3 <= 5 \/ default (-1) ([3; 4; 5] !! Z.to_nat 5) < 0) /\
  App.led_control 5 "on" [3; 4; 5] board_off = (-1, board_off).
Proof.
  assert (H : 5 < 0 \/ 3 <= 5 \/ default (-1) ([3; 4; 5] !! Z.to_nat 5) < 0)
    by (right; left; lia).
  split; [exact H|].
  exact (proj1 (proj1 (led_control_rejects 5 "on" [3; 4; 5] board_off) H)).
Defined.
